(** * A shallow embedding of [src/consumer/consume.py] (malawi-mpq)

    The consumer receives WIS 2.0 MQP notifications, obtains the file either
    inline (base64) or by an HTTP GET of [baseUrl + relPath], checks its
    length and SHA-512 digest, and writes it under [./out/<topic as dirs>/].

    Conventions of the model:
    - bytes are [list Z], each element in 0..255;
    - Python [str] values coming from JSON are Rocq [string]s;
    - a parsed JSON document is the inductive [json]; objects are association
      lists with unique keys (as [json.loads] builds them);
    - Python exceptions are the inductive [exc], raised in a small
      state/exception monad [M] whose state is the filesystem together with
      the trace of observable effects (log records, HTTP GETs, makedirs,
      file writes);
    - the library collaborators that the claims do not depend on
      ([hashlib.sha512], [json.loads], [requests.get]) are variables of a
      Section, so every theorem holds for every choice of them. *)

From Stdlib Require Import String Ascii ZArith List Bool Lia.
Import ListNotations.
Open Scope string_scope.
Open Scope Z_scope.
#[local] Set Warnings "-register-all".

(* ------------------------------------------------------------------ *)
(** ** Bytes and strings *)

Definition bytes := list Z.

Definition byte_of_ascii (c : ascii) : Z := Z.of_nat (nat_of_ascii c).
Definition ascii_of_byte (b : Z) : ascii := ascii_of_nat (Z.to_nat b).

Fixpoint bytes_of_string (s : string) : bytes :=
  match s with
  | EmptyString => []
  | String c r => byte_of_ascii c :: bytes_of_string r
  end.

Fixpoint string_of_bytes (bs : bytes) : string :=
  match bs with
  | [] => EmptyString
  | b :: r => String (ascii_of_byte b) (string_of_bytes r)
  end.

(* ------------------------------------------------------------------ *)
(** ** [base64.b64encode] *)

Definition b64_alphabet : string :=
  "ABCDEFGHIJKLMNOPQRSTUVWXYZabcdefghijklmnopqrstuvwxyz0123456789+/".

Definition b64_char (v : Z) : ascii :=
  match String.get (Z.to_nat v) b64_alphabet with
  | Some c => c
  | None => "="%char
  end.

(** [binascii.b2a_base64] without the trailing newline: three input bytes
    give four characters, a short final group is padded with [=]. *)
Fixpoint b64encode (bs : bytes) : string :=
  match bs with
  | [] => EmptyString
  | [a] =>
      String (b64_char (Z.shiftr a 2))
        (String (b64_char (Z.shiftl (Z.land a 3) 4))
           (String "=" (String "=" EmptyString)))
  | [a; b] =>
      String (b64_char (Z.shiftr a 2))
        (String (b64_char (Z.lor (Z.shiftl (Z.land a 3) 4) (Z.shiftr b 4)))
           (String (b64_char (Z.shiftl (Z.land b 15) 2))
              (String "=" EmptyString)))
  | a :: b :: c :: rest =>
      String (b64_char (Z.shiftr a 2))
        (String (b64_char (Z.lor (Z.shiftl (Z.land a 3) 4) (Z.shiftr b 4)))
           (String (b64_char (Z.lor (Z.shiftl (Z.land b 15) 2) (Z.shiftr c 6)))
              (String (b64_char (Z.land c 63)) (b64encode rest))))
  end.

(* ------------------------------------------------------------------ *)
(** ** [base64.b64decode] (non-strict [binascii.a2b_base64]) *)

(** [table_a2b_base64]: the 6-bit value of an alphabet character, 64 for
    every other character. *)
Definition a2b_table (c : ascii) : Z :=
  let n := byte_of_ascii c in
  if (65 <=? n) && (n <=? 90) then n - 65
  else if (97 <=? n) && (n <=? 122) then n - 71
  else if (48 <=? n) && (n <=? 57) then n + 4
  else if n =? 43 then 62
  else if n =? 47 then 63
  else 64.

(** The errors [b64decode] raises on a [str] argument. *)
Inductive b64_error :=
| B64NonAscii           (* ValueError: string argument should contain only ASCII characters *)
| B64OneMoreThanQuad    (* binascii.Error: number of data characters cannot be 1 more than a multiple of 4 *)
| B64IncorrectPadding.  (* binascii.Error: Incorrect padding *)

(** The decoding loop of [a2b_base64] in non-strict mode: characters outside
    the alphabet are skipped; a pad character after at least two data
    characters of a quad may complete the quad, and then decoding stops
    ([goto done], which skips the final [quad_pos] check). *)
Fixpoint a2b_loop (s : string) (quad_pos : nat) (leftchar : Z) (pads : nat)
  (out : bytes) : b64_error + bytes :=
  match s with
  | EmptyString =>
      match quad_pos with
      | O => inr (rev out)
      | 1%nat => inl B64OneMoreThanQuad
      | _ => inl B64IncorrectPadding
      end
  | String c rest =>
      if Ascii.eqb c "="%char then
        if (2 <=? quad_pos)%nat then
          if (4 <=? quad_pos + S pads)%nat then inr (rev out)
          else a2b_loop rest quad_pos leftchar (S pads) out
        else a2b_loop rest quad_pos leftchar pads out
      else
        let this_ch := a2b_table c in
        if 64 <=? this_ch then a2b_loop rest quad_pos leftchar pads out
        else
          match quad_pos with
          | O => a2b_loop rest 1 this_ch 0 out
          | 1%nat =>
              a2b_loop rest 2 (Z.land this_ch 15) 0
                (Z.land (Z.lor (Z.shiftl leftchar 2) (Z.shiftr this_ch 4)) 255 :: out)
          | 2%nat =>
              a2b_loop rest 3 (Z.land this_ch 3) 0
                (Z.land (Z.lor (Z.shiftl leftchar 4) (Z.shiftr this_ch 2)) 255 :: out)
          | _ =>
              a2b_loop rest 0 0 0
                (Z.land (Z.lor (Z.shiftl leftchar 6) this_ch) 255 :: out)
          end
  end.

Fixpoint is_ascii_string (s : string) : bool :=
  match s with
  | EmptyString => true
  | String c r => (byte_of_ascii c <? 128) && is_ascii_string r
  end.

(** [base64.b64decode(s)] for a [str] [s]: [s.encode('ascii')], then
    [binascii.a2b_base64(s, strict_mode=False)]. *)
Definition b64decode (s : string) : b64_error + bytes :=
  if is_ascii_string s then a2b_loop s 0 0 0 [] else inl B64NonAscii.

(* ------------------------------------------------------------------ *)
(** ** [hexdigest]: lowercase hexadecimal *)

Definition hex_char (v : Z) : ascii :=
  match String.get (Z.to_nat v) "0123456789abcdef" with
  | Some c => c
  | None => "?"%char
  end.

Fixpoint hexlify (bs : bytes) : string :=
  match bs with
  | [] => EmptyString
  | b :: r => String (hex_char (Z.shiftr b 4)) (String (hex_char (Z.land b 15)) (hexlify r))
  end.

(* ------------------------------------------------------------------ *)
(** ** [posixpath.split], [posixpath.join] and [str.replace('.', '/')] *)

Definition is_slash (c : ascii) : bool := Ascii.eqb c "/"%char.

Fixpoint has_slash (s : string) : bool :=
  match s with
  | EmptyString => false
  | String c r => is_slash c || has_slash r
  end.

(** [i = p.rfind('/') + 1; head, tail = p[:i], p[i:]] *)
Fixpoint split_after_last_slash (s : string) : string * string :=
  match s with
  | EmptyString => (EmptyString, EmptyString)
  | String c r =>
      if has_slash r then
        let (h, t) := split_after_last_slash r in (String c h, t)
      else if is_slash c then (String c EmptyString, r)
      else (EmptyString, String c r)
  end.

Fixpoint all_slashes (s : string) : bool :=
  match s with
  | EmptyString => true
  | String c r => is_slash c && all_slashes r
  end.

Fixpoint rstrip_slash (s : string) : string :=
  match s with
  | EmptyString => EmptyString
  | String c r =>
      let r' := rstrip_slash r in
      match r' with
      | EmptyString => if is_slash c then EmptyString else String c EmptyString
      | _ => String c r'
      end
  end.

(** [posixpath.split(p)] *)
Definition path_split (p : string) : string * string :=
  let (head, tail) := split_after_last_slash p in
  let head := if negb (String.eqb head "") && negb (all_slashes head)
              then rstrip_slash head else head in
  (head, tail).

Definition starts_with_slash (s : string) : bool :=
  match s with
  | String c _ => is_slash c
  | EmptyString => false
  end.

Fixpoint ends_with_slash (s : string) : bool :=
  match s with
  | EmptyString => false
  | String c EmptyString => is_slash c
  | String _ r => ends_with_slash r
  end.

(** [posixpath.join(a, b)] *)
Definition path_join (a b : string) : string :=
  if starts_with_slash b then b
  else if String.eqb a "" || ends_with_slash a then a ++ b
  else a ++ "/" ++ b.

(** [topic.replace(".", "/")] *)
Fixpoint replace_dots (s : string) : string :=
  match s with
  | EmptyString => EmptyString
  | String c r => String (if Ascii.eqb c "."%char then "/"%char else c) (replace_dots r)
  end.

(* ------------------------------------------------------------------ *)
(** ** Parsed JSON and the Python operations the code applies to it *)

Inductive json :=
| JNull
| JBool (b : bool)
| JNum (n : Z)
| JStr (s : string)
| JArr (xs : list json)
| JObj (kvs : list (string * json)).

Fixpoint assoc (kvs : list (string * json)) (k : string) : option json :=
  match kvs with
  | [] => None
  | (k', v) :: r => if String.eqb k' k then Some v else assoc r k
  end.

(** The value stored under key [k] of a JSON object ([None] for a missing
    key and for every value that is not an object). *)
Definition field (j : json) (k : string) : option json :=
  match j with
  | JObj kvs => assoc kvs k
  | _ => None
  end.

(** [v == "lit"] for a JSON-decoded [v]: only a [str] can be equal. *)
Definition py_eq_str (v : json) (lit : string) : bool :=
  match v with
  | JStr s => String.eqb s lit
  | _ => false
  end.

(** [n == v] for an [int] [n] and a JSON-decoded [v]; [True == 1] and
    [False == 0] in Python. *)
Definition py_eq_int (n : Z) (v : json) : bool :=
  match v with
  | JNum m => Z.eqb n m
  | JBool b => Z.eqb n (if b then 1 else 0)
  | _ => false
  end.

Fixpoint prefix_of (p s : string) : bool :=
  match p, s with
  | EmptyString, _ => true
  | String c p', String d s' => Ascii.eqb c d && prefix_of p' s'
  | String _ _, EmptyString => false
  end.

Fixpoint substring_of (p s : string) : bool :=
  prefix_of p s ||
  match s with
  | EmptyString => false
  | String _ s' => substring_of p s'
  end.

(* ------------------------------------------------------------------ *)
(** ** Python exceptions raised along the pipeline *)

Inductive exc :=
| ExcJSONDecode                 (* json.JSONDecodeError / UnicodeDecodeError from json.loads *)
| ExcValidation                 (* jsonschema.exceptions.ValidationError from validate *)
| ExcEncodingNotSupported       (* Exception("message encoding not supported") *)
| ExcIntegrityNotSupported      (* Exception("message integrity not supported") *)
| ExcKeyError (k : string)      (* KeyError on message[k] *)
| ExcTypeError                  (* TypeError: subscript, [in], [+] or split on a wrong type *)
| ExcBase64 (e : b64_error)     (* binascii.Error / ValueError from base64.b64decode *)
| ExcRequest                    (* requests.exceptions.RequestException from requests.get *)
| ExcLength (shown_expected : Z) (shown_got : json)
    (* Exception("integrity issue. Message length expected {} got {}"
                 .format(len(content), message["size"])) *)
| ExcChecksum (shown_expected : string) (shown_got : json)
    (* Exception("integrity issue. Expected checksum {} got {}"
                 .format(content_hash, message["integrity"]["value"])) *)
| ExcFileSystem (path : string). (* OSError from os.makedirs or open *)

(** [isinstance(e, Exception)]: every exception above derives from
    [Exception] (none is a bare [BaseException] such as [SystemExit]). *)
Definition is_Exception (e : exc) : bool :=
  match e with
  | ExcJSONDecode | ExcValidation | ExcEncodingNotSupported
  | ExcIntegrityNotSupported | ExcKeyError _ | ExcTypeError | ExcBase64 _
  | ExcRequest | ExcLength _ _ | ExcChecksum _ _ | ExcFileSystem _ => true
  end.

(* ------------------------------------------------------------------ *)
(** ** Filesystem

    A POSIX tree without symlinks or permissions: nodes are keyed by their
    absolute path as a list of segments; the root always exists as a
    directory. Path strings are resolved lexically against [cwd]. *)

Inductive node := NDir | NFile (content : bytes).

Record fsys := mkFs { cwd : list string; nodes : list (list string * node) }.

Fixpoint path_eqb (p q : list string) : bool :=
  match p, q with
  | [], [] => true
  | x :: p', y :: q' => String.eqb x y && path_eqb p' q'
  | _, _ => false
  end.

Fixpoint lookup_node (ns : list (list string * node)) (p : list string) : option node :=
  match ns with
  | [] => None
  | (q, n) :: r => if path_eqb q p then Some n else lookup_node r p
  end.

Definition node_at (fs : fsys) (p : list string) : option node :=
  match p with
  | [] => Some NDir
  | _ => lookup_node (nodes fs) p
  end.

Definition set_node (fs : fsys) (p : list string) (n : node) : fsys :=
  mkFs (cwd fs) ((p, n) :: filter (fun e => negb (path_eqb (fst e) p)) (nodes fs)).

(** Split a path string at every [/]. *)
Fixpoint segments (s : string) : list string :=
  match s with
  | EmptyString => [EmptyString]
  | String c r =>
      let segs := segments r in
      if is_slash c then EmptyString :: segs
      else match segs with
           | x :: xs => String c x :: xs
           | [] => [String c EmptyString]
           end
  end.

Definition norm_step (acc : list string) (s : string) : list string :=
  if String.eqb s "" || String.eqb s "." then acc
  else if String.eqb s ".." then removelast acc
  else (acc ++ [s])%list.

Definition resolve (fs : fsys) (p : string) : list string :=
  fold_left norm_step (segments p) (if starts_with_slash p then [] else cwd fs).

(** [os.makedirs(p, exist_ok=True)]: creates the missing directories from the
    top down; a component that exists as a file raises, leaving the
    directories created so far in place ([inl]). *)
Fixpoint mkdirs_walk (fs : fsys) (pre rest : list string) : fsys + fsys :=
  match rest with
  | [] => inr fs
  | s :: r =>
      let q := (pre ++ [s])%list in
      match node_at fs q with
      | Some NDir => mkdirs_walk fs q r
      | Some (NFile _) => inl fs
      | None => mkdirs_walk (set_node fs q NDir) q r
      end
  end.

Definition os_makedirs (fs : fsys) (p : string) : fsys + fsys :=
  mkdirs_walk fs [] (resolve fs p).

(** [open(p, "wb").write(content)]: fails on a directory (or a name with a
    trailing slash) and when the parent is not an existing directory;
    otherwise creates or truncates the file. *)
Definition open_write (fs : fsys) (p : string) (content : bytes) : option fsys :=
  let q := resolve fs p in
  if ends_with_slash p then None
  else match q with
       | [] => None
       | _ =>
           match node_at fs q with
           | Some NDir => None
           | _ =>
               match node_at fs (removelast q) with
               | Some NDir => Some (set_node fs q (NFile content))
               | _ => None
               end
           end
       end.

(* ------------------------------------------------------------------ *)
(** ** Observable effects, state and the exception monad *)

Inductive level := DEBUG | INFO | WARNING | ERROR.

(** A log record: its text, or a prefix followed by a formatted value. *)
Inductive log_msg :=
| LogText (s : string)
| LogJson (prefix : string) (j : json)
| LogExc (prefix : string) (e : exc).

Inductive event :=
| EvLog (l : level) (m : log_msg)
| EvGet (url : string)
| EvMakedirs (path : string)
| EvWrite (path : string) (content : bytes).

Record state := mkState { st_fs : fsys; st_trace : list event }.

Inductive outcome (A : Type) :=
| Ret (a : A) (s : state)
| Raise (e : exc) (s : state).
Arguments Ret {A} a s.
Arguments Raise {A} e s.

Definition M (A : Type) := state -> outcome A.

Definition ret {A} (a : A) : M A := fun s => Ret a s.
Definition raise {A} (e : exc) : M A := fun s => Raise e s.
Definition bind {A B} (m : M A) (k : A -> M B) : M B :=
  fun s => match m s with
           | Ret a s' => k a s'
           | Raise e s' => Raise e s'
           end.

Notation "x <- m ;; k" := (bind m (fun x => k))
  (at level 61, m at next level, right associativity).
Notation "' p <- m ;; k" := (bind m (fun x => match x with p => k end))
  (at level 61, p pattern, m at next level, right associativity).
Notation "m ;; k" := (bind m (fun _ => k)) (at level 61, right associativity).

(** [try: m except Exception as e: h(e)] *)
Definition try_except {A} (m : M A) (h : exc -> M A) : M A :=
  fun s => match m s with
           | Ret a s' => Ret a s'
           | Raise e s' => if is_Exception e then h e s' else Raise e s'
           end.

Definition emit (ev : event) : M unit :=
  fun s => Ret tt (mkState (st_fs s) (st_trace s ++ [ev])%list).

(** [message[k]] *)
Definition getitem (j : json) (k : string) : M json :=
  match j with
  | JObj kvs =>
      match assoc kvs k with
      | Some v => ret v
      | None => raise (ExcKeyError k)
      end
  | _ => raise ExcTypeError
  end.

(** [k in message] *)
Definition py_in (k : string) (j : json) : M bool :=
  match j with
  | JObj kvs => ret (match assoc kvs k with Some _ => true | None => false end)
  | JArr xs => ret (existsb (fun x => py_eq_str x k) xs)
  | JStr s => ret (substring_of k s)
  | _ => raise ExcTypeError
  end.

(* ------------------------------------------------------------------ *)
(** ** The message schema *)

Definition is_json_str (v : option json) : bool :=
  match v with Some (JStr _) => true | _ => false end.

Definition is_json_int (v : option json) : bool :=
  match v with Some (JNum _) => true | _ => false end.

Definition is_present (v : option json) : bool :=
  match v with Some _ => true | None => false end.

(** Modelled from the spec: [message-schema.json], loaded by the module at
    start-up, is not part of [src/]. Following the spec (section 4.1 and the
    data model of section 3), the grammar requires an object with [relPath]
    (string), [size] (integer), [integrity] (object with [method] in the
    enumeration ["sha512"] and a string [value]), and either [content]
    (object with [encoding] in the enumeration ["base64"] and a string
    [value]) or [baseUrl] (string). *)
Definition schema_ok (m : json) : bool :=
  match m with
  | JObj _ =>
      is_json_str (field m "relPath")
      && is_json_int (field m "size")
      && match field m "integrity" with
         | Some (JObj _ as i) =>
             match field i "method" with
             | Some meth => py_eq_str meth "sha512"
             | None => false
             end && is_json_str (field i "value")
         | _ => false
         end
      && match field m "content" with
         | None => true
         | Some (JObj _ as c) =>
             match field c "encoding" with
             | Some e => py_eq_str e "base64"
             | None => false
             end && is_json_str (field c "value")
         | Some _ => false
         end
      && match field m "baseUrl" with
         | None => true
         | Some b => is_json_str (Some b)
         end
      && (is_present (field m "content") || is_present (field m "baseUrl"))
  | _ => false
  end.

(* ------------------------------------------------------------------ *)
(** ** The pipeline: [parse_mqp_message], [callback] and the consume loop *)

(** The outcome of [requests.get(url)]: a response (of any status; the code
    reads [.content] without looking at the status) or a transport error
    (connection refused, DNS failure, ...), which [requests] raises. *)
Inductive http_outcome :=
| HttpResponse (status : Z) (body : bytes)
| HttpTransportError.

(** [out_dir = r"./out"] *)
Definition out_dir : string := "./out".

Section Consumer.

(** [hashlib.sha512(content).digest()] *)
Variable sha512 : bytes -> bytes.
(** [json.loads(body)]; [None] when it raises. *)
Variable json_loads : bytes -> option json.
(** What the network answers to a GET of a URL. *)
Variable http_get : string -> http_outcome.

(** [message = json.loads(message)] *)
Definition load_json (body : bytes) : M json :=
  match json_loads body with
  | Some j => ret j
  | None => raise ExcJSONDecode
  end.

(** [validate(instance=message, schema=schema)] *)
Definition validate (m : json) : M unit :=
  if schema_ok m then ret tt else raise ExcValidation.

(** Lines 38-41: only base64 content and sha512 integrity. *)
Definition check_support (m : json) : M unit :=
  has_content <- py_in "content" m ;;
  (if has_content then
     c <- getitem m "content" ;;
     enc <- getitem c "encoding" ;;
     if negb (py_eq_str enc "base64") then raise ExcEncodingNotSupported else ret tt
   else ret tt) ;;
  integ <- getitem m "integrity" ;;
  meth <- getitem integ "method" ;;
  if negb (py_eq_str meth "sha512") then raise ExcIntegrityNotSupported else ret tt.

(** [base64.b64decode(v)] *)
Definition b64decode_m (v : json) : M bytes :=
  match v with
  | JStr s =>
      match b64decode s with
      | inr bs => ret bs
      | inl e => raise (ExcBase64 e)
      end
  | _ => raise ExcTypeError
  end.

(** [message["baseUrl"] + message["relPath"]], both strings. *)
Definition str_add (a b : json) : M string :=
  match a, b with
  | JStr x, JStr y => ret (x ++ y)
  | _, _ => raise ExcTypeError
  end.

(** [requests.get(url).content] *)
Definition requests_get (url : string) : M bytes :=
  emit (EvGet url) ;;
  match http_get url with
  | HttpResponse _ body => ret body
  | HttpTransportError => raise ExcRequest
  end.

(** Line 44: inline content or download. *)
Definition obtain_content (m : json) : M bytes :=
  has_content <- py_in "content" m ;;
  if has_content then
    c <- getitem m "content" ;;
    v <- getitem c "value" ;;
    b64decode_m v
  else
    base <- getitem m "baseUrl" ;;
    rel <- getitem m "relPath" ;;
    url <- str_add base rel ;;
    requests_get url.

(** Lines 47-53: length, then base64 digest, then hex digest. *)
Definition check_integrity (m : json) (content : bytes) : M unit :=
  let content_hash := b64encode (sha512 content) in
  size <- getitem m "size" ;;
  (if negb (py_eq_int (Z.of_nat (length content)) size)
   then raise (ExcLength (Z.of_nat (length content)) size)
   else ret tt) ;;
  integ <- getitem m "integrity" ;;
  v <- getitem integ "value" ;;
  if negb (py_eq_str v content_hash) then
    emit (EvLog WARNING (LogText "checksum problem. Check old style encoding")) ;;
    integ' <- getitem m "integrity" ;;
    v' <- getitem integ' "value" ;;
    if negb (py_eq_str v' (hexlify (sha512 content)))
    then raise (ExcChecksum content_hash v')
    else ret tt
  else ret tt.

(** [os.path.split(message["relPath"])] *)
Definition path_split_m (v : json) : M (string * string) :=
  match v with
  | JStr s => ret (path_split s)
  | _ => raise ExcTypeError
  end.

(** [os.makedirs(p, exist_ok=True)] *)
Definition makedirs_m (p : string) : M unit :=
  fun s =>
    match os_makedirs (st_fs s) p with
    | inr fs' => Ret tt (mkState fs' (st_trace s ++ [EvMakedirs p])%list)
    | inl fs' => Raise (ExcFileSystem p) (mkState fs' (st_trace s))
    end.

(** [with open(p, "wb") as fp: fp.write(content)] *)
Definition write_file_m (p : string) (content : bytes) : M unit :=
  fun s =>
    match open_write (st_fs s) p content with
    | Some fs' => Ret tt (mkState fs' (st_trace s ++ [EvWrite p content])%list)
    | None => Raise (ExcFileSystem p) s
    end.

(** Lines 55-63. *)
Definition write_out (m : json) (topic : string) (content : bytes) : M unit :=
  rel <- getitem m "relPath" ;;
  '(path, filename) <- path_split_m rel ;;
  let topic_dir := path_join out_dir (replace_dots topic) in
  makedirs_m topic_dir ;;
  let out_file := path_join topic_dir filename in
  write_file_m out_file content ;;
  emit (EvLog INFO (LogText ("Obtained and wrote file: " ++ out_file))).

(** Lines 32-44: parse, validate, check support, resolve the content. *)
Definition parse_upto_content (body : bytes) : M (json * bytes) :=
  m <- load_json body ;;
  emit (EvLog DEBUG (LogJson "MQP message: " m)) ;;
  validate m ;;
  check_support m ;;
  content <- obtain_content m ;;
  ret (m, content).

(** [parse_mqp_message(message, topic)] *)
Definition parse_mqp_message (body : bytes) (topic : string) : M unit :=
  '(m, content) <- parse_upto_content body ;;
  check_integrity m content ;;
  write_out m topic content.

(** [callback(ch, method, properties, body)] with
    [topic = method.routing_key]. *)
Definition callback (topic : string) (body : bytes) : M unit :=
  emit (EvLog INFO (LogText ("Received message with topic: " ++ topic))) ;;
  try_except (parse_mqp_message body topic)
    (fun e => emit (EvLog ERROR (LogExc "exception during mqp processing: " e))).

(** [channel.start_consuming()]: the deliveries are handed to [callback] one
    at a time; an exception escaping [callback] would end the loop. *)
Fixpoint consume (deliveries : list (string * bytes)) : M unit :=
  match deliveries with
  | [] => ret tt
  | (topic, body) :: rest => callback topic body ;; consume rest
  end.

End Consumer.

(* ------------------------------------------------------------------ *)
(** ** Derived notions used by the statements *)

Definition st_of {A} (o : outcome A) : state :=
  match o with Ret _ s => s | Raise _ s => s end.

Definition with_ev (s : state) (ev : event) : state :=
  mkState (st_fs s) (st_trace s ++ [ev])%list.

(** The warning of line 51. *)
Definition warn_old_style : event :=
  EvLog WARNING (LogText "checksum problem. Check old style encoding").

(** The events that touch the filesystem. *)
Definition fs_event (ev : event) : bool :=
  match ev with
  | EvMakedirs _ | EvWrite _ _ => true
  | EvLog _ _ | EvGet _ => false
  end.

Definition is_fs_error (e : exc) : bool :=
  match e with ExcFileSystem _ => true | _ => false end.

(** [message["integrity"]["value"]] when both exist. *)
Definition integrity_value (m : json) : option json :=
  match field m "integrity" with
  | Some i => field i "value"
  | None => None
  end.

(** The final component of [relPath]: [os.path.split(relPath)[1]]. *)
Definition basename (rel : string) : string := snd (path_split rel).

(** [os.path.join(os.path.join(out_dir, topic.replace(".", "/")), filename)] *)
Definition out_path (topic rel : string) : string :=
  path_join (path_join out_dir (replace_dots topic)) (basename rel).

(** The gate of the schema: a payload lacking [relPath], [size] or
    [integrity], or declaring another integrity method than ["sha512"], or
    another content encoding than ["base64"]. *)
Definition gate_violation (m : json) : Prop :=
  field m "relPath" = None \/ field m "size" = None \/ field m "integrity" = None \/
  (exists i v, field m "integrity" = Some i /\ field i "method" = Some v /\ v <> JStr "sha512") \/
  (exists c v, field m "content" = Some c /\ field c "encoding" = Some v /\ v <> JStr "base64").

(** The state after [callback(topic, body)] returns: the pipeline ran, and
    its exception, if any, was logged. *)
Definition handled (sha : bytes -> bytes) (loads : bytes -> option json)
  (http : string -> http_outcome) (topic : string) (body : bytes) (s : state) : state :=
  let s0 := with_ev s (EvLog INFO (LogText ("Received message with topic: " ++ topic))) in
  match parse_mqp_message sha loads http body topic s0 with
  | Ret _ s' => s'
  | Raise e s' => with_ev s' (EvLog ERROR (LogExc "exception during mqp processing: " e))
  end.

(** A node that [os.makedirs] can pass through or create. *)
Definition dir_or_absentb (o : option node) : bool :=
  match o with
  | Some NDir | None => true
  | Some (NFile _) => false
  end.

Definition is_dir_node (o : option node) : bool :=
  match o with Some NDir => true | _ => false end.

(** The file [name] can be written in the directory [cwd/rel]: every
    directory on the way is present or absent (not a file), and [name] is not
    a directory. *)
Definition can_write_under (fs : fsys) (rel : list string) (name : string) : bool :=
  let dir := (cwd fs ++ rel)%list in
  forallb (fun k => dir_or_absentb (node_at fs (firstn k dir))) (seq 1 (length dir))
  && negb (is_dir_node (node_at fs (dir ++ [name])%list)).

(* ------------------------------------------------------------------ *)
(** ** Sample messages and collaborators *)

Definition hello : bytes := bytes_of_string "hello world".

Definition inline_message (rel : string) (size : Z) (value digest : string) : json :=
  JObj [("relPath", JStr rel); ("size", JNum size);
        ("content", JObj [("encoding", JStr "base64"); ("value", JStr value)]);
        ("integrity", JObj [("method", JStr "sha512"); ("value", JStr digest)])].

Definition remote_message (base rel : string) (size : Z) (digest : string) : json :=
  JObj [("baseUrl", JStr base); ("relPath", JStr rel); ("size", JNum size);
        ("integrity", JObj [("method", JStr "sha512"); ("value", JStr digest)])].

(** The message of the spec's end-to-end example, for a digest function [sha]. *)
Definition station1_message (sha : bytes -> bytes) : json :=
  inline_message "obs/station1.csv" 11 "aGVsbG8gd29ybGQ=" (b64encode (sha hello)).

(** The hello-world message with a given declared digest. *)
Definition hello_message (digest : string) : json :=
  inline_message "obs/station1.csv" 11 "aGVsbG8gd29ybGQ=" digest.

(** A stand-in digest function and collaborators for concrete runs. *)
Definition demo_sha (bs : bytes) : bytes := rev bs.
Definition loads_const (j : json) (_ : bytes) : option json := Some j.
Definition no_network (_ : string) : http_outcome := HttpTransportError.
Definition empty_state : state := mkState (mkFs ["srv"] [(["srv"], NDir)]) [].

(** The state after [json.loads] and the debug log of [m]. *)
Definition after_load (m : json) : state :=
  with_ev empty_state (EvLog DEBUG (LogJson "MQP message: " m)).

(** The hello-world content declared with 12 bytes. *)
Definition hello_size12 : json :=
  inline_message "obs/station1.csv" 12 "aGVsbG8gd29ybGQ=" (b64encode (demo_sha hello)).

(** An inline message whose base64 value lacks its padding. *)
Definition bad_b64_message : json :=
  inline_message "obs/station1.csv" 2 "abc" "x".

(** A server answering every GET with a 404 whose body is the hello-world
    bytes. *)
Definition http_404 (_ : string) : http_outcome := HttpResponse 404 hello.

(** A remote message. *)
Definition remote_station1 : json :=
  remote_message "https://example.org/data/" "obs/station1.csv" 11 (b64encode (demo_sha hello)).

(** The same remote message with the digest of [hello world] under a given
    digest function [sha]. *)
Definition remote_station1_sha (sha : bytes -> bytes) : json :=
  remote_message "https://example.org/data/" "obs/station1.csv" 11 (b64encode (sha hello)).

(* ------------------------------------------------------------------ *)
(** ** Module-level settings (lines 14-23)

    [os.environ] is an association list of names and string values;
    [os.environ.get(k, default)] answers the string bound to [k], or the
    default, which for [DEBUG] is the Python object [True]. *)

Inductive py_setting := SetStr (s : string) | SetBool (b : bool).

Fixpoint environ_lookup (env : list (string * string)) (k : string) : option string :=
  match env with
  | [] => None
  | (k', v) :: r => if String.eqb k' k then Some v else environ_lookup r k
  end.

(** [os.environ.get(k, default)] *)
Definition environ_get (env : list (string * string)) (k : string)
  (default : py_setting) : py_setting :=
  match environ_lookup env k with
  | Some v => SetStr v
  | None => default
  end.

(** Python truth value of a [str] or a [bool]. *)
Definition truthy (v : py_setting) : bool :=
  match v with
  | SetStr s => negb (String.eqb s "")
  | SetBool b => b
  end.

(** [DEBUG = os.environ.get('DEBUG', True)] *)
Definition DEBUG_of (env : list (string * string)) : py_setting :=
  environ_get env "DEBUG" (SetBool true).

(** [log_level = logging.DEBUG if DEBUG else logging.INFO] *)
Definition log_level_of (env : list (string * string)) : level :=
  if truthy (DEBUG_of env) then DEBUG else INFO.

(* ------------------------------------------------------------------ *)
(** ** Notions used by the statements about the library helpers *)

(** Exhaustive checks over [0 .. n-1], evaluated by [vm_compute]. *)
Definition all_below (n : nat) (P : Z -> bool) : bool :=
  forallb (fun k => P (Z.of_nat k)) (seq 0 n).

Definition in64 (e : Z) : bool := (0 <=? e) && (e <? 64).

Fixpoint all_chars (f : ascii -> bool) (s : string) : bool :=
  match s with
  | EmptyString => true
  | String c r => f c && all_chars f r
  end.

(** A lowercase hexadecimal digit: [0-9] or [a-f]. *)
Definition is_lower_hex (c : ascii) : bool :=
  let n := byte_of_ascii c in ((48 <=? n) && (n <=? 57)) || ((97 <=? n) && (n <=? 102)).

Fixpoint has_dot (s : string) : bool :=
  match s with
  | EmptyString => false
  | String c r => Ascii.eqb c "."%char || has_dot r
  end.

(** The non-empty components of a path string split at [/]. *)
Definition nonempty_segments (s : string) : list string :=
  filter (fun w => negb (String.eqb w "")) (segments s).

(** Between [fs] and [fs'], the node at [q] is unchanged or is a directory
    that did not exist before. *)
Definition dir_created_or_same (fs fs' : fsys) (q : list string) : Prop :=
  node_at fs' q = node_at fs q \/ (node_at fs q = None /\ node_at fs' q = Some NDir).

Definition outcome_with {A} (r : A + exc) (s : state) : outcome A :=
  match r with inl a => Ret a s | inr e => Raise e s end.

(** [m] reads nothing of the state: its result and the events it appends
    are the same from every state, and it leaves the filesystem alone. *)
Definition stateless {A} (m : M A) : Prop :=
  exists r evs, forall s, m s = outcome_with r (mkState (st_fs s) (st_trace s ++ evs)%list).

(* ------------------------------------------------------------------ *)
(** ** Computations that leave the filesystem alone *)

(** [quiet m]: [m] leaves the filesystem unchanged and only appends events
    that are not filesystem events, whether it returns or raises. *)
Definition quiet {A} (m : M A) : Prop :=
  forall s, st_fs (st_of (m s)) = st_fs s /\
    exists evs, st_trace (st_of (m s)) = (st_trace s ++ evs)%list
                /\ forallb (fun ev => negb (fs_event ev)) evs = true.

Lemma quiet_ret {A} (a : A) : quiet (ret a).
Proof. intro s; split; [reflexivity | exists []; rewrite app_nil_r; auto]. Qed.

Lemma quiet_raise {A} (e : exc) : quiet (A := A) (raise e).
Proof. intro s; split; [reflexivity | exists []; rewrite app_nil_r; auto]. Qed.

Lemma quiet_emit ev : fs_event ev = false -> quiet (emit ev).
Proof.
  intros H s; split; [reflexivity | exists [ev]; simpl; rewrite H; auto].
Qed.

Lemma quiet_bind {A B} (m : M A) (k : A -> M B) :
  quiet m -> (forall a, quiet (k a)) -> quiet (bind m k).
Proof.
  intros Hm Hk s. unfold bind. specialize (Hm s).
  destruct (m s) as [a s1 | e s1] eqn:E; simpl in *.
  - destruct Hm as [Hfs [evs [Htr Hok]]].
    destruct (Hk a s1) as [Hfs' [evs' [Htr' Hok']]].
    split; [congruence |].
    exists (evs ++ evs')%list. rewrite Htr', Htr, app_assoc. split; [reflexivity |].
    rewrite forallb_app, Hok, Hok'. reflexivity.
  - exact Hm.
Qed.

Lemma quiet_getitem j k : quiet (getitem j k).
Proof.
  destruct j; simpl; try apply quiet_raise.
  destruct (assoc kvs k); [apply quiet_ret | apply quiet_raise].
Qed.

Lemma quiet_py_in k j : quiet (py_in k j).
Proof. destruct j; simpl; (apply quiet_ret || apply quiet_raise). Qed.

Create HintDb quiet_db.
#[local] Hint Resolve quiet_ret quiet_raise quiet_getitem quiet_py_in : quiet_db.

Ltac quiet_step :=
  match goal with
  | |- quiet (bind _ _) => apply quiet_bind; [ | intro ]
  | |- quiet (emit _) => apply quiet_emit; reflexivity
  | |- quiet (if ?b then _ else _) => destruct b
  | |- quiet (match ?x with _ => _ end) => destruct x
  | |- forall _, _ => intro
  | |- quiet _ => solve [auto with quiet_db]
  end.

Ltac quiet_solve := repeat quiet_step.

Section Quiet.
Variable sha512 : bytes -> bytes.
Variable json_loads : bytes -> option json.
Variable http_get : string -> http_outcome.

Lemma quiet_load_json body : quiet (load_json json_loads body).
Proof. unfold load_json. quiet_solve. Qed.

Lemma quiet_validate m : quiet (validate m).
Proof. unfold validate. quiet_solve. Qed.

Lemma quiet_check_support m : quiet (check_support m).
Proof. unfold check_support. quiet_solve. Qed.

Lemma quiet_b64decode_m v : quiet (b64decode_m v).
Proof. unfold b64decode_m. quiet_solve. Qed.

Lemma quiet_str_add a b : quiet (str_add a b).
Proof. unfold str_add. quiet_solve. Qed.

Lemma quiet_requests_get url : quiet (requests_get http_get url).
Proof. unfold requests_get. quiet_solve. Qed.

#[local] Hint Resolve quiet_load_json quiet_validate quiet_check_support
  quiet_b64decode_m quiet_str_add quiet_requests_get : quiet_db.

Lemma quiet_obtain_content m : quiet (obtain_content http_get m).
Proof. unfold obtain_content. quiet_solve. Qed.

Lemma quiet_check_integrity m c : quiet (check_integrity sha512 m c).
Proof. unfold check_integrity. quiet_solve. Qed.

#[local] Hint Resolve quiet_obtain_content : quiet_db.

Lemma quiet_parse_upto_content body :
  quiet (parse_upto_content json_loads http_get body).
Proof. unfold parse_upto_content. quiet_solve. Qed.

End Quiet.

(* ------------------------------------------------------------------ *)
(** ** Facts about the stages *)

Lemma py_eq_str_true v s : py_eq_str v s = true -> v = JStr s.
Proof. destruct v; simpl; try discriminate. intro H. apply String.eqb_eq in H. now subst. Qed.

Lemma getitem_field j k v : field j k = Some v -> getitem j k = ret v.
Proof. destruct j; simpl; try discriminate. intros H. now rewrite H. Qed.

Lemma bind_ret_l {A B} (a : A) (k : A -> M B) s : bind (ret a) k s = k a s.
Proof. reflexivity. Qed.

Ltac break_in H :=
  repeat match type of H with
  | context [match ?x with _ => _ end] => destruct x eqn:?; simpl in H
  end.

Ltac andb_split :=
  repeat match goal with
  | H : _ && _ = true |- _ => apply andb_true_iff in H; destruct H
  end.

(** What a message accepted by [validate] provides. *)
Lemma schema_ok_fields m :
  schema_ok m = true ->
  (exists rel, field m "relPath" = Some (JStr rel)) /\
  (exists n, field m "size" = Some (JNum n)) /\
  (exists i v, field m "integrity" = Some i /\ field i "value" = Some (JStr v)).
Proof.
  intro H. destruct m; try discriminate H. unfold schema_ok in H. andb_split.
  repeat split.
  - destruct (field (JObj kvs) "relPath") as [[]|]; simpl in *; try discriminate; eauto.
  - destruct (field (JObj kvs) "size") as [[]|]; simpl in *; try discriminate; eauto.
  - destruct (field (JObj kvs) "integrity") as [[]|]; try discriminate.
    andb_split. destruct (field (JObj kvs0) "value") as [[]|] eqn:E; simpl in *;
      try discriminate.
    exists (JObj kvs0), s. auto.
Qed.

Lemma upto_ret loads http body st m c s1 :
  parse_upto_content loads http body st = Ret (m, c) s1 ->
  loads body = Some m /\ schema_ok m = true /\ st_fs s1 = st_fs st.
Proof.
  intro H. pose proof (quiet_parse_upto_content loads http body st) as [Hq _].
  rewrite H in Hq. simpl in Hq.
  unfold parse_upto_content, load_json, bind in H.
  destruct (loads body) as [j|]; [| discriminate]. simpl in H.
  unfold validate, emit in H. destruct (schema_ok j) eqn:Hs; simpl in H; [| discriminate].
  break_in H; try discriminate. unfold ret in H. inversion H; subst. auto.
Qed.

Lemma parse_after_upto sha loads http body topic st m c s1 :
  parse_upto_content loads http body st = Ret (m, c) s1 ->
  parse_mqp_message sha loads http body topic st =
  bind (check_integrity sha m c) (fun _ => write_out m topic c) s1.
Proof. intro H. unfold parse_mqp_message. unfold bind at 1. now rewrite H. Qed.

(** Lines 47-53 once the fields are known. *)
Lemma check_integrity_eq sha m c s sz i v :
  field m "size" = Some sz ->
  field m "integrity" = Some i ->
  field i "value" = Some (JStr v) ->
  check_integrity sha m c s =
  if negb (py_eq_int (Z.of_nat (length c)) sz)
  then Raise (ExcLength (Z.of_nat (length c)) sz) s
  else if String.eqb v (b64encode (sha c)) then Ret tt s
  else if String.eqb v (hexlify (sha c)) then Ret tt (with_ev s warn_old_style)
  else Raise (ExcChecksum (b64encode (sha c)) (JStr v)) (with_ev s warn_old_style).
Proof.
  intros Hs Hi Hv.
  destruct m as [| | | | |kvs]; try discriminate.
  destruct i as [| | | | |ikvs]; try discriminate.
  simpl in Hs, Hi, Hv.
  unfold check_integrity, bind, getitem, ret, raise, emit, with_ev.
  rewrite Hs, Hi, Hv.
  destruct (negb (py_eq_int _ sz)); [reflexivity |].
  unfold py_eq_str.
  destruct (String.eqb v (b64encode (sha c))); simpl; [reflexivity |].
  unfold py_eq_str.
  destruct (String.eqb v (hexlify (sha c))); reflexivity.
Qed.

(** Lines 38-41 pass for every message the schema accepts. *)
Lemma check_support_ok m s : schema_ok m = true -> check_support m s = Ret tt s.
Proof.
  intro H. destruct m as [| | | | |kvs]; try discriminate H.
  unfold schema_ok in H. simpl field in H. andb_split.
  unfold check_support, py_in, bind, getitem, ret, raise.
  destruct (assoc kvs "content") as [c |] eqn:Ec.
  - destruct c as [| | | | |ckvs]; try discriminate. andb_split. simpl field in *.
    destruct (assoc ckvs "encoding") as [enc |]; [| discriminate]. simpl.
    match goal with Hb : py_eq_str enc "base64" = true |- _ => rewrite Hb end. simpl.
    destruct (assoc kvs "integrity") as [[| | | | |ikvs] |]; try discriminate. andb_split.
    simpl field in *. destruct (assoc ikvs "method") as [meth |]; [| discriminate].
    simpl.
    match goal with Hm : py_eq_str meth "sha512" = true |- _ => rewrite Hm end. reflexivity.
  - simpl.
    destruct (assoc kvs "integrity") as [[| | | | |ikvs] |]; try discriminate. andb_split.
    simpl field in *. destruct (assoc ikvs "method") as [meth |]; [| discriminate].
    simpl.
    match goal with Hm : py_eq_str meth "sha512" = true |- _ => rewrite Hm end. reflexivity.
Qed.

(** A failure of the write stage that is not an [OSError] happens before
    [os.makedirs], hence leaves the filesystem as it was. *)
Lemma quiet_path_split_m v : quiet (path_split_m v).
Proof. unfold path_split_m. quiet_solve. Qed.

Lemma makedirs_m_raise p s e s' : makedirs_m p s = Raise e s' -> is_fs_error e = true.
Proof. unfold makedirs_m. destruct (os_makedirs (st_fs s) p); intro H; inversion H; reflexivity. Qed.

Lemma write_file_m_raise p c s e s' : write_file_m p c s = Raise e s' -> is_fs_error e = true.
Proof. unfold write_file_m. destruct (open_write (st_fs s) p c); intro H; inversion H; reflexivity. Qed.

Lemma write_out_raise m topic c s e s' :
  write_out m topic c s = Raise e s' -> is_fs_error e = false -> st_fs s' = st_fs s.
Proof.
  intros H He. unfold write_out, bind in H.
  pose proof (proj1 (quiet_getitem m "relPath" s)) as Q1.
  destruct (getitem m "relPath" s) as [rel s1 | e1 s1]; simpl in Q1;
    [| inversion H; subst; exact Q1].
  pose proof (proj1 (quiet_path_split_m rel s1)) as Q2.
  destruct (path_split_m rel s1) as [[dir fname] s2 | e2 s2]; simpl in Q2;
    [| inversion H; subst; congruence].
  destruct (makedirs_m _ s2) as [u s3 | e3 s3] eqn:E3.
  - destruct (write_file_m _ c s3) as [u' s4 | e4 s4] eqn:E4.
    + unfold emit in H. discriminate H.
    + inversion H; subst. apply write_file_m_raise in E4. congruence.
  - inversion H; subst. apply makedirs_m_raise in E3. congruence.
Qed.

(* ------------------------------------------------------------------ *)
(** ** Sanity checks of the embedding *)

Example b64_hello :
  b64decode "aGVsbG8gd29ybGQ=" = inr (bytes_of_string "hello world").
Proof. vm_compute. reflexivity. Qed.

Example b64_roundtrip_hello :
  b64encode (bytes_of_string "hello world") = "aGVsbG8gd29ybGQ=".
Proof. vm_compute. reflexivity. Qed.

Example split_example : path_split "x/y/file.bin" = ("x/y", "file.bin").
Proof. vm_compute. reflexivity. Qed.

Example join_example :
  path_join (path_join "./out" (replace_dots "a.b.c")) "file.bin" = "./out/a/b/c/file.bin".
Proof. vm_compute. reflexivity. Qed.

Lemma schema_rejects_gate m : gate_violation m -> schema_ok m = false.
Proof.
  intro G. apply not_true_iff_false. intro H.
  destruct m as [| | | | |kvs]; try discriminate H.
  unfold schema_ok in H. andb_split.
  destruct G as [G | [G | [G | [G | G]]]].
  - rewrite G in *. discriminate.
  - rewrite G in *. discriminate.
  - rewrite G in *. discriminate.
  - destruct G as (i & v & Gi & Gv & Gne). rewrite Gi in *.
    destruct i as [| | | | |ikvs]; try discriminate. rewrite Gv in *.
    andb_split. apply Gne, py_eq_str_true. assumption.
  - destruct G as (c & v & Gc & Gv & Gne). rewrite Gc in *.
    destruct c as [| | | | |ckvs]; try discriminate. rewrite Gv in *.
    andb_split. apply Gne, py_eq_str_true. assumption.
Qed.

(* ------------------------------------------------------------------ *)
(** ** The claims *)

(** C4: a payload that lacks [relPath], [size] or [integrity], or declares
    an integrity method other than ["sha512"] or a content encoding other
    than ["base64"], fails at [validate]: the only effect recorded before
    the failure is the debug log of the message, so no GET is issued and
    the filesystem is untouched. *)
Theorem schema_gate_before_effects sha loads http body topic st m :
  loads body = Some m ->
  gate_violation m ->
  parse_mqp_message sha loads http body topic st =
  Raise ExcValidation (with_ev st (EvLog DEBUG (LogJson "MQP message: " m))).
Proof.
  intros Hl G. unfold parse_mqp_message, parse_upto_content, load_json, bind.
  rewrite Hl. unfold ret, emit, validate. rewrite (schema_rejects_gate m G). reflexivity.
Qed.

Lemma schema_gate_before_effects_witness :
  loads_const (JObj [("size", JNum 11)]) [] = Some (JObj [("size", JNum 11)]) /\
  gate_violation (JObj [("size", JNum 11)]) /\
  parse_mqp_message demo_sha (loads_const (JObj [("size", JNum 11)])) no_network
    [] "mw.synop" empty_state =
  Raise ExcValidation
    (with_ev empty_state (EvLog DEBUG (LogJson "MQP message: " (JObj [("size", JNum 11)])))).
Proof.
  assert (G : gate_violation (JObj [("size", JNum 11)])) by (left; reflexivity).
  split; [reflexivity | split; [exact G |]].
  apply schema_gate_before_effects; [reflexivity | exact G].
Defined.

(** C5: once the content is resolved, a length different from the declared
    [size] fails with the length error and leaves the filesystem as it was;
    and processing returns normally (the file was written) only when the
    length equals [size] and the declared digest is the base64 or the hex
    encoding of the SHA-512 of the content. *)
Theorem length_check_gates_write sha loads http body topic st m c s1 :
  parse_upto_content loads http body st = Ret (m, c) s1 ->
  exists n, field m "size" = Some (JNum n) /\
    (Z.of_nat (length c) <> n ->
       exists s2, parse_mqp_message sha loads http body topic st =
                  Raise (ExcLength (Z.of_nat (length c)) (JNum n)) s2
                  /\ st_fs s2 = st_fs st) /\
    (forall s2, parse_mqp_message sha loads http body topic st = Ret tt s2 ->
       Z.of_nat (length c) = n /\
       exists v, integrity_value m = Some (JStr v) /\
                 (v = b64encode (sha c) \/ v = hexlify (sha c))).
Proof.
  intros Hup. destruct (upto_ret _ _ _ _ _ _ _ Hup) as [_ [Hs Hfs]].
  destruct (schema_ok_fields m Hs) as [_ [[n Hn] [i [v [Hi Hv]]]]].
  exists n. split; [exact Hn |]. split.
  - intros Hne. rewrite (parse_after_upto sha _ _ _ topic _ _ _ _ Hup).
    unfold bind at 1. rewrite (check_integrity_eq sha m c s1 _ _ _ Hn Hi Hv).
    assert (E : py_eq_int (Z.of_nat (length c)) (JNum n) = false)
      by (simpl; apply Z.eqb_neq; exact Hne).
    rewrite E. simpl. eexists; split; [reflexivity | exact Hfs].
  - intros s2 Hret. rewrite (parse_after_upto sha _ _ _ topic _ _ _ _ Hup) in Hret.
    unfold bind in Hret. rewrite (check_integrity_eq sha m c s1 _ _ _ Hn Hi Hv) in Hret.
    simpl py_eq_int in Hret.
    destruct (Z.eqb_spec (Z.of_nat (length c)) n) as [Hlen | Hlen];
      simpl in Hret; [| discriminate].
    split; [exact Hlen |]. exists v.
    unfold integrity_value. rewrite Hi. split; [exact Hv |].
    destruct (String.eqb_spec v (b64encode (sha c))); [left; assumption |].
    destruct (String.eqb_spec v (hexlify (sha c))); [right; assumption |].
    discriminate.
Qed.

Lemma length_check_gates_write_witness :
  (exists s2, parse_mqp_message demo_sha (loads_const hello_size12) no_network [] "mw.synop"
                empty_state = Raise (ExcLength 11 (JNum 12)) s2 /\
              st_fs s2 = st_fs empty_state) /\
  (exists s2, parse_mqp_message demo_sha (loads_const (station1_message demo_sha)) no_network []
                "mw.synop" empty_state = Ret tt s2 /\
              Z.of_nat (length hello) = 11 /\
              exists v, integrity_value (station1_message demo_sha) = Some (JStr v) /\
                (v = b64encode (demo_sha hello) \/ v = hexlify (demo_sha hello))).
Proof.
  assert (H12 : parse_upto_content (loads_const hello_size12) no_network [] empty_state =
                Ret (hello_size12, hello) (after_load hello_size12))
    by (vm_compute; reflexivity).
  assert (H11 : parse_upto_content (loads_const (station1_message demo_sha)) no_network []
                  empty_state =
                Ret (station1_message demo_sha, hello) (after_load (station1_message demo_sha)))
    by (vm_compute; reflexivity).
  split.
  - destruct (length_check_gates_write demo_sha _ _ _ "mw.synop" _ _ _ _ H12)
      as [n [Hn [Hmis _]]].
    injection Hn as <-.
    destruct (Hmis ltac:(discriminate)) as [s2 Hs2]. exists s2. exact Hs2.
  - destruct (length_check_gates_write demo_sha _ _ _ "mw.synop" _ _ _ _ H11)
      as [n [Hn [_ Hok]]].
    injection Hn as <-.
    eexists. split; [vm_compute; reflexivity |]. eapply Hok. vm_compute. reflexivity.
Defined.

(** C2: with the declared size matched, the digest is first compared in
    base64: on a match processing goes on to the write with no warning (the
    hex form is not consulted); on a mismatch the warning is logged and the
    hex form is compared: on a match processing goes on to the write exactly
    as after a clean match, the warning apart; otherwise the message fails
    with the checksum error, the filesystem untouched. *)
Theorem digest_hex_fallback sha loads http body topic st m c s1 :
  parse_upto_content loads http body st = Ret (m, c) s1 ->
  (exists n, field m "size" = Some (JNum n) /\ Z.of_nat (length c) = n) ->
  exists v, integrity_value m = Some (JStr v) /\
   (v = b64encode (sha c) ->
      parse_mqp_message sha loads http body topic st = write_out m topic c s1) /\
   (v <> b64encode (sha c) -> v = hexlify (sha c) ->
      parse_mqp_message sha loads http body topic st =
      write_out m topic c (with_ev s1 warn_old_style)) /\
   (v <> b64encode (sha c) -> v <> hexlify (sha c) ->
      parse_mqp_message sha loads http body topic st =
      Raise (ExcChecksum (b64encode (sha c)) (JStr v)) (with_ev s1 warn_old_style)
      /\ st_fs (with_ev s1 warn_old_style) = st_fs st).
Proof.
  intros Hup [n [Hn Hlen]]. destruct (upto_ret _ _ _ _ _ _ _ Hup) as [_ [Hs Hfs]].
  destruct (schema_ok_fields m Hs) as [_ [_ [i [v [Hi Hv]]]]].
  exists v. split; [unfold integrity_value; rewrite Hi; exact Hv |].
  rewrite (parse_after_upto sha _ _ _ topic _ _ _ _ Hup).
  unfold bind. rewrite (check_integrity_eq sha m c s1 _ _ _ Hn Hi Hv).
  assert (E : py_eq_int (Z.of_nat (length c)) (JNum n) = true)
    by (simpl; apply Z.eqb_eq; exact Hlen).
  rewrite E. simpl negb. cbv iota.
  split; [| split].
  - intros Hb. destruct (String.eqb_spec v (b64encode (sha c))); [reflexivity | contradiction].
  - intros Hb Hh. destruct (String.eqb_spec v (b64encode (sha c))); [contradiction |].
    destruct (String.eqb_spec v (hexlify (sha c))); [reflexivity | contradiction].
  - intros Hb Hh. destruct (String.eqb_spec v (b64encode (sha c))); [contradiction |].
    destruct (String.eqb_spec v (hexlify (sha c))); [contradiction |].
    split; [reflexivity | exact Hfs].
Qed.

Lemma digest_hex_fallback_witness :
  parse_upto_content (loads_const (hello_message (hexlify (demo_sha hello)))) no_network
    [] empty_state =
    Ret (hello_message (hexlify (demo_sha hello)), hello)
        (after_load (hello_message (hexlify (demo_sha hello)))) /\
  parse_mqp_message demo_sha (loads_const (hello_message (hexlify (demo_sha hello))))
    no_network [] "mw.synop" empty_state =
  write_out (hello_message (hexlify (demo_sha hello))) "mw.synop" hello
    (with_ev (after_load (hello_message (hexlify (demo_sha hello)))) warn_old_style).
Proof.
  assert (H : parse_upto_content (loads_const (hello_message (hexlify (demo_sha hello))))
                no_network [] empty_state =
              Ret (hello_message (hexlify (demo_sha hello)), hello)
                  (after_load (hello_message (hexlify (demo_sha hello)))))
    by (vm_compute; reflexivity).
  split; [exact H |].
  destruct (digest_hex_fallback demo_sha _ _ _ "mw.synop" _ _ _ _ H) as [v [Hv [_ [Hhex _]]]].
  { exists 11. split; reflexivity. }
  vm_compute in Hv. injection Hv as <-.
  apply Hhex; vm_compute; [discriminate | reflexivity].
Defined.

(** C8 (as the code has it): a length mismatch fails with the length error
    whose message shows [len(content)] in the "expected" slot and the
    declared [message["size"]] in the "got" slot. *)
Theorem length_error_reports_content_length_first sha loads http body topic st m c s1 sz :
  parse_upto_content loads http body st = Ret (m, c) s1 ->
  field m "size" = Some sz ->
  py_eq_int (Z.of_nat (length c)) sz = false ->
  parse_mqp_message sha loads http body topic st =
  Raise (ExcLength (Z.of_nat (length c)) sz) s1.
Proof.
  intros Hup Hsz Hne. destruct (upto_ret _ _ _ _ _ _ _ Hup) as [_ [Hs _]].
  destruct (schema_ok_fields m Hs) as [_ [_ [i [v [Hi Hv]]]]].
  rewrite (parse_after_upto sha _ _ _ topic _ _ _ _ Hup).
  unfold bind at 1. rewrite (check_integrity_eq sha m c s1 _ _ _ Hsz Hi Hv), Hne.
  reflexivity.
Qed.

Lemma length_error_reports_content_length_first_witness :
  parse_upto_content (loads_const hello_size12) no_network [] empty_state =
    Ret (hello_size12, hello) (after_load hello_size12) /\
  field hello_size12 "size" = Some (JNum 12) /\
  py_eq_int (Z.of_nat (length hello)) (JNum 12) = false /\
  parse_mqp_message demo_sha (loads_const hello_size12) no_network [] "mw.synop" empty_state =
  Raise (ExcLength 11 (JNum 12)) (after_load hello_size12).
Proof.
  assert (H : parse_upto_content (loads_const hello_size12) no_network [] empty_state =
              Ret (hello_size12, hello) (after_load hello_size12))
    by (vm_compute; reflexivity).
  split; [exact H | split; [reflexivity | split; [reflexivity |]]].
  exact (length_error_reports_content_length_first demo_sha _ _ _ "mw.synop" _ _ _ _ _
           H eq_refl eq_refl).
Defined.

(** C8, refuted: the 11-byte hello-world content declared with [size] 12
    fails with the message "expected 11 got 12", not with expected 12 (the
    declared size) and actual 11. *)
Lemma length_error_fields_swapped :
  parse_mqp_message demo_sha (loads_const hello_size12) no_network [] "mw.synop" empty_state =
    Raise (ExcLength 11 (JNum 12)) (after_load hello_size12) /\
  forall s', parse_mqp_message demo_sha (loads_const hello_size12) no_network [] "mw.synop"
               empty_state <> Raise (ExcLength 12 (JNum 11)) s'.
Proof.
  split; [vm_compute; reflexivity |].
  intros s' H. vm_compute in H. discriminate H.
Qed.

(** C9: a message that fails with anything but an [OSError] of
    [os.makedirs]/[open] (so at JSON parsing, validation, the support
    checks, resolution, the length or the checksum check) leaves the
    filesystem exactly as it was: no directory created, no file written. *)
Theorem failure_before_write_leaves_fs sha loads http body topic st e s' :
  parse_mqp_message sha loads http body topic st = Raise e s' ->
  is_fs_error e = false ->
  st_fs s' = st_fs st.
Proof.
  intros H He. unfold parse_mqp_message, bind at 1 in H.
  pose proof (proj1 (quiet_parse_upto_content loads http body st)) as Q1.
  destruct (parse_upto_content loads http body st) as [[m c] s1 | e1 s1];
    simpl in Q1; [| inversion H; subst; exact Q1].
  unfold bind in H.
  pose proof (proj1 (quiet_check_integrity sha m c s1)) as Q2.
  destruct (check_integrity sha m c s1) as [u s2 | e2 s2]; simpl in Q2.
  - rewrite <- Q1, <- Q2. exact (write_out_raise _ _ _ _ _ _ H He).
  - inversion H; subst. congruence.
Qed.

Lemma failure_before_write_leaves_fs_witness :
  parse_mqp_message demo_sha (loads_const remote_station1) no_network [] "mw.synop" empty_state =
    Raise ExcRequest
      (with_ev (after_load remote_station1) (EvGet "https://example.org/data/obs/station1.csv")) /\
  is_fs_error ExcRequest = false /\
  st_fs (with_ev (after_load remote_station1) (EvGet "https://example.org/data/obs/station1.csv"))
  = st_fs empty_state.
Proof.
  assert (H : parse_mqp_message demo_sha (loads_const remote_station1) no_network [] "mw.synop"
                empty_state =
              Raise ExcRequest (with_ev (after_load remote_station1)
                                  (EvGet "https://example.org/data/obs/station1.csv")))
    by (vm_compute; reflexivity).
  split; [exact H | split; [reflexivity |]].
  exact (failure_before_write_leaves_fs _ _ _ _ _ _ _ _ H eq_refl).
Defined.

Lemma callback_returns sha loads http topic body s :
  callback sha loads http topic body s = Ret tt (handled sha loads http topic body s).
Proof.
  unfold callback, handled, bind, emit, try_except, with_ev.
  destruct (parse_mqp_message sha loads http body topic _) as [u s' | e s'].
  - destruct u. reflexivity.
  - destruct e; reflexivity.
Qed.

(** C7: [callback] always returns normally, whatever happens inside the
    pipeline, after running the pipeline on its delivery; so the consume loop
    hands every delivery of a batch to the pipeline in turn, and a failing
    delivery is followed by the processing of all the later ones. *)
Theorem callback_isolates_failures sha loads http :
  (forall topic body s,
     callback sha loads http topic body s = Ret tt (handled sha loads http topic body s)) /\
  (forall ds s,
     consume sha loads http ds s =
     Ret tt (fold_left (fun s d => handled sha loads http (fst d) (snd d) s) ds s)) /\
  (forall ds1 d ds2 s,
     consume sha loads http (ds1 ++ d :: ds2) s =
     Ret tt (fold_left (fun s d => handled sha loads http (fst d) (snd d) s) ds2
               (handled sha loads http (fst d) (snd d)
                  (fold_left (fun s d => handled sha loads http (fst d) (snd d) s) ds1 s)))).
Proof.
  assert (Hc : forall ds s,
     consume sha loads http ds s =
     Ret tt (fold_left (fun s d => handled sha loads http (fst d) (snd d) s) ds s)).
  { induction ds as [| [t b] ds IH]; intro s; [reflexivity |].
    simpl. unfold bind. rewrite callback_returns. apply IH. }
  split; [exact (callback_returns sha loads http) | split; [exact Hc |]].
  intros ds1 d ds2 s. rewrite Hc, fold_left_app. reflexivity.
Qed.

(** C10: an inline message accepted by [validate], declaring
    [encoding: "base64"] but whose value ["abc"] is not decodable, fails in
    [base64.b64decode] with [binascii.Error] ("Incorrect padding"), not with
    the "message encoding not supported" exception; no filesystem effect
    happens, and [callback] catches the error and returns normally. *)
Theorem undecodable_inline_base64_fails sha loads http body topic st :
  loads body = Some bad_b64_message ->
  schema_ok bad_b64_message = true /\
  py_eq_str (JStr "base64") "base64" = true /\
  (forall s, parse_mqp_message sha loads http body topic s =
     Raise (ExcBase64 B64IncorrectPadding)
       (with_ev s (EvLog DEBUG (LogJson "MQP message: " bad_b64_message)))) /\
  ExcBase64 B64IncorrectPadding <> ExcEncodingNotSupported /\
  exists s', callback sha loads http topic body st = Ret tt s' /\ st_fs s' = st_fs st.
Proof.
  intros Hl.
  assert (Hp : forall s, parse_mqp_message sha loads http body topic s =
     Raise (ExcBase64 B64IncorrectPadding)
       (with_ev s (EvLog DEBUG (LogJson "MQP message: " bad_b64_message)))).
  { intro s. unfold parse_mqp_message, parse_upto_content, load_json, bind.
    rewrite Hl. reflexivity. }
  split; [reflexivity | split; [reflexivity | split; [exact Hp | split; [discriminate |]]]].
  rewrite callback_returns. eexists; split; [reflexivity |].
  unfold handled. rewrite Hp. reflexivity.
Qed.

Lemma undecodable_inline_base64_fails_witness :
  loads_const bad_b64_message [] = Some bad_b64_message /\
  parse_mqp_message demo_sha (loads_const bad_b64_message) no_network [] "mw.synop" empty_state =
  Raise (ExcBase64 B64IncorrectPadding) (after_load bad_b64_message).
Proof.
  split; [reflexivity |].
  destruct (undecodable_inline_base64_fails demo_sha (loads_const bad_b64_message) no_network
              [] "mw.synop" empty_state eq_refl) as [_ [_ [Hp _]]].
  exact (Hp empty_state).
Defined.

(** C3 (as the code has it): a valid message without [content] (with
    string [baseUrl] and [relPath]) is resolved by exactly one GET of
    [baseUrl + relPath], the only event after the debug log; a transport
    error fails the message with the request exception, while any HTTP
    response, whatever its status, yields its body as the content, which
    then goes through the length and digest checks and, if it passes them,
    is written out (lines 47-63). *)
Theorem remote_content_single_get sha loads http body topic st m base rel :
  loads body = Some m ->
  schema_ok m = true ->
  field m "content" = None ->
  field m "baseUrl" = Some (JStr base) ->
  field m "relPath" = Some (JStr rel) ->
  parse_mqp_message sha loads http body topic st =
  match http (base ++ rel) with
  | HttpResponse _ c =>
      bind (check_integrity sha m c) (fun _ => write_out m topic c)
        (with_ev (with_ev st (EvLog DEBUG (LogJson "MQP message: " m))) (EvGet (base ++ rel)))
  | HttpTransportError =>
      Raise ExcRequest
        (with_ev (with_ev st (EvLog DEBUG (LogJson "MQP message: " m))) (EvGet (base ++ rel)))
  end.
Proof.
  intros Hl Hs Hc Hb Hr.
  unfold parse_mqp_message, parse_upto_content, load_json. unfold bind at 1 2. rewrite Hl.
  unfold ret at 1. unfold bind at 1. unfold emit at 1.
  unfold bind at 1. unfold validate. rewrite Hs. unfold ret at 1.
  unfold bind at 1. rewrite check_support_ok by exact Hs.
  destruct m as [| | | | |kvs]; try discriminate. simpl in Hc, Hb, Hr.
  unfold obtain_content, py_in, bind, getitem, ret, raise, str_add, requests_get, emit.
  rewrite Hc, Hb, Hr. cbn.
  destruct (http (base ++ rel)); reflexivity.
Qed.

Lemma remote_content_single_get_witness :
  loads_const remote_station1 [] = Some remote_station1 /\
  schema_ok remote_station1 = true /\
  parse_mqp_message demo_sha (loads_const remote_station1) http_404 [] "mw.synop" empty_state =
  bind (check_integrity demo_sha remote_station1 hello)
    (fun _ => write_out remote_station1 "mw.synop" hello)
    (with_ev (with_ev empty_state (EvLog DEBUG (LogJson "MQP message: " remote_station1)))
       (EvGet "https://example.org/data/obs/station1.csv")).
Proof.
  split; [reflexivity | split; [reflexivity |]].
  exact (remote_content_single_get demo_sha (loads_const remote_station1) http_404 []
           "mw.synop" empty_state remote_station1 "https://example.org/data/" "obs/station1.csv"
           eq_refl eq_refl eq_refl eq_refl eq_refl).
Defined.


(* ------------------------------------------------------------------ *)
(** ** Paths written by the write stage *)

Lemma split_after_last_slash_spec s :
  (fst (split_after_last_slash s) ++ snd (split_after_last_slash s))%string = s /\
  has_slash (snd (split_after_last_slash s)) = false.
Proof.
  induction s as [| c r IH]; [split; reflexivity |]. simpl.
  destruct (has_slash r) eqn:Hr.
  - destruct (split_after_last_slash r) as [h t]. simpl in *.
    destruct IH as [IH1 IH2]. rewrite IH1. auto.
  - destruct (is_slash c) eqn:Hc; simpl; [auto |]. rewrite Hc, Hr. auto.
Qed.

Lemma basename_spec rel :
  has_slash (basename rel) = false /\ exists d, rel = (d ++ basename rel)%string.
Proof.
  unfold basename, path_split. destruct (split_after_last_slash_spec rel) as [H1 H2].
  destruct (split_after_last_slash rel) as [h t]. simpl in *.
  split; [exact H2 | exists h; symmetry; exact H1].
Qed.

Lemma write_out_ret m topic c s s' :
  write_out m topic c s = Ret tt s' ->
  exists rel, field m "relPath" = Some (JStr rel) /\
    st_trace s' =
    (st_trace s ++ [EvMakedirs (path_join out_dir (replace_dots topic));
                    EvWrite (out_path topic rel) c;
                    EvLog INFO (LogText ("Obtained and wrote file: " ++ out_path topic rel))])%list.
Proof.
  intros H. unfold write_out, bind in H.
  destruct m as [| | | | |kvs]; simpl in H; try discriminate.
  destruct (assoc kvs "relPath") as [[| | | rel | |]|] eqn:Er; simpl in H; try discriminate.
  exists rel. split; [exact Er |].
  unfold out_path, basename.
  destruct (path_split rel) as [d f]. simpl in *.
  unfold makedirs_m in H. destruct (os_makedirs (st_fs s) _) as [fs1 | fs1]; [discriminate |].
  unfold write_file_m in H. simpl in H.
  destruct (open_write fs1 (path_join (path_join out_dir (replace_dots topic)) f) c)
    as [fs2 |]; [| discriminate].
  unfold emit in H. inversion H; subst. simpl. rewrite <- !app_assoc. reflexivity.
Qed.

(** The output path of the spec's example. *)
Example out_path_example : out_path "a.b.c" "x/y/file.bin" = "./out/a/b/c/file.bin".
Proof. vm_compute. reflexivity. Qed.

(** C1: when a message is processed to the end, the write stage creates
    [os.path.join(out_dir, topic.replace(".", "/"))] and writes the content
    once, at [os.path.join] of that directory and the final component of
    [relPath]; that component contains no [/] and ends [relPath], so no
    directory component of [relPath] reaches the output path. No earlier
    step of the message touches the filesystem. *)
Theorem written_path_from_topic_and_basename sha loads http body topic st s' :
  parse_mqp_message sha loads http body topic st = Ret tt s' ->
  exists m rel c evs,
    loads body = Some m /\
    field m "relPath" = Some (JStr rel) /\
    st_trace s' =
      (st_trace st ++ evs ++
       [EvMakedirs (path_join out_dir (replace_dots topic));
        EvWrite (out_path topic rel) c;
        EvLog INFO (LogText ("Obtained and wrote file: " ++ out_path topic rel))])%list /\
    forallb (fun ev => negb (fs_event ev)) evs = true /\
    out_path topic rel = path_join (path_join out_dir (replace_dots topic)) (basename rel) /\
    has_slash (basename rel) = false /\
    (exists d, rel = (d ++ basename rel)%string).
Proof.
  intros H. unfold parse_mqp_message, bind at 1 in H.
  destruct (parse_upto_content loads http body st) as [[m c] s1 | e1 s1] eqn:U;
    [| discriminate].
  destruct (upto_ret _ _ _ _ _ _ _ U) as [Hl _].
  destruct (quiet_parse_upto_content loads http body st) as [_ [evs1 [T1 F1]]].
  rewrite U in T1. simpl in T1.
  unfold bind in H.
  destruct (quiet_check_integrity sha m c s1) as [_ [evs2 [T2 F2]]].
  destruct (check_integrity sha m c s1) as [u s2 | e2 s2]; [| discriminate].
  simpl in T2.
  destruct (write_out_ret _ _ _ _ _ H) as [rel [Hrel T3]].
  destruct (basename_spec rel) as [B1 B2].
  exists m, rel, c, (evs1 ++ evs2)%list.
  split; [exact Hl | split; [exact Hrel | split]].
  - rewrite T3, T2, T1. rewrite <- !app_assoc. reflexivity.
  - split; [rewrite forallb_app, F1, F2; reflexivity |].
    split; [reflexivity | split; [exact B1 | exact B2]].
Qed.

Lemma written_path_from_topic_and_basename_witness :
  exists s', parse_mqp_message demo_sha (loads_const (station1_message demo_sha)) no_network
               [] "mw.synop" empty_state = Ret tt s' /\
  exists rel, field (station1_message demo_sha) "relPath" = Some (JStr rel) /\
              out_path "mw.synop" rel = "./out/mw/synop/station1.csv".
Proof.
  destruct (parse_mqp_message demo_sha (loads_const (station1_message demo_sha)) no_network
              [] "mw.synop" empty_state) as [u s' | e s'] eqn:E.
  - destruct u. exists s'. split; [reflexivity |].
    destruct (written_path_from_topic_and_basename _ _ _ _ _ _ _ E)
      as (m & rel & c & evs & Hl & Hrel & _).
    injection Hl as <-. exists rel. split; [exact Hrel |].
    vm_compute in Hrel. injection Hrel as <-. vm_compute. reflexivity.
  - vm_compute in E. discriminate E.
Defined.

(* ------------------------------------------------------------------ *)
(** ** [os.makedirs] and [open] on a writable tree *)

Lemma path_eqb_eq p q : path_eqb p q = true <-> p = q.
Proof.
  revert q. induction p as [| x p IH]; intros [| y q]; simpl;
    try (split; congruence).
  rewrite andb_true_iff, String.eqb_eq, IH. split; [intros [-> ->]; reflexivity |].
  intro H; injection H; auto.
Qed.

Lemma lookup_filter ns q p :
  p <> q ->
  lookup_node (filter (fun e => negb (path_eqb (fst e) q)) ns) p = lookup_node ns p.
Proof.
  intro Hne. induction ns as [| [q' n'] ns IH]; [reflexivity |]. simpl.
  destruct (path_eqb q' q) eqn:E; simpl.
  - apply path_eqb_eq in E. subst q'.
    destruct (path_eqb q p) eqn:E'; [apply path_eqb_eq in E'; congruence | exact IH].
  - rewrite IH. reflexivity.
Qed.

Lemma node_at_set_other fs q n p :
  p <> q -> node_at (set_node fs q n) p = node_at fs p.
Proof.
  intro Hne. destruct p as [| x p]; [reflexivity |].
  unfold node_at, set_node. simpl.
  destruct (path_eqb q (x :: p)) eqn:E.
  - apply path_eqb_eq in E. congruence.
  - apply lookup_filter. exact Hne.
Qed.

Lemma node_at_set_same fs q n : q <> [] -> node_at (set_node fs q n) q = Some n.
Proof.
  intro Hq. destruct q as [| x q]; [contradiction |].
  unfold node_at, set_node. simpl.
  replace (String.eqb x x && path_eqb q q) with (path_eqb (x :: q) (x :: q)) by reflexivity.
  rewrite (proj2 (path_eqb_eq _ _) eq_refl). reflexivity.
Qed.

Lemma length_firstn_le {A} k (l : list A) : (k <= length l)%nat -> length (firstn k l) = k.
Proof. intro H. rewrite length_firstn. lia. Qed.

Lemma mkdirs_walk_ok rest : forall fs pre,
  (forall k, (1 <= k <= length rest)%nat ->
     dir_or_absentb (node_at fs (pre ++ firstn k rest)) = true) ->
  exists fs', mkdirs_walk fs pre rest = inr fs' /\ cwd fs' = cwd fs /\
    (forall k, (1 <= k <= length rest)%nat -> node_at fs' (pre ++ firstn k rest) = Some NDir) /\
    (forall p, (length p <= length pre \/ length (pre ++ rest) < length p)%nat ->
       node_at fs' p = node_at fs p).
Proof.
  induction rest as [| s r IH]; intros fs pre H.
  - exists fs. repeat split; auto. simpl. intros k Hk. lia.
  - set (q := (pre ++ [s])%list).
    assert (Hq : forall k, (pre ++ firstn (S k) (s :: r) = q ++ firstn k r)%list)
      by (intro k; unfold q; simpl; rewrite <- app_assoc; reflexivity).
    assert (Hlq : length q = S (length pre)) by (unfold q; rewrite length_app; simpl; lia).
    assert (H1 : dir_or_absentb (node_at fs q) = true)
      by (specialize (H 1%nat); simpl in H; apply H; simpl; lia).
    assert (Hrest : forall fs0, (forall p, p <> q -> node_at fs0 p = node_at fs p) ->
              forall k, (1 <= k <= length r)%nat ->
              dir_or_absentb (node_at fs0 (q ++ firstn k r)) = true).
    { intros fs0 Hfs0 k Hk. rewrite Hfs0.
      - rewrite <- Hq. apply H. simpl. lia.
      - intro E. apply (f_equal (@length string)) in E.
        rewrite length_app, length_firstn_le in E; lia. }
    assert (Hdone : forall fs0, node_at fs0 q = Some NDir -> cwd fs0 = cwd fs ->
              (forall p, p <> q -> node_at fs0 p = node_at fs p) ->
              exists fs', mkdirs_walk fs0 q r = inr fs' /\ cwd fs' = cwd fs /\
                (forall k, (1 <= k <= length (s :: r))%nat ->
                   node_at fs' (pre ++ firstn k (s :: r)) = Some NDir) /\
                (forall p, (length p <= length pre \/ length (pre ++ s :: r) < length p)%nat ->
                   node_at fs' p = node_at fs p)).
    { intros fs0 Hdir Hcwd Hfs0.
      destruct (IH fs0 q (Hrest fs0 Hfs0)) as [fs' [Hw [Hc [Hd Hf]]]].
      exists fs'. split; [exact Hw | split; [congruence | split]].
      - intros [| k] Hk; [lia |]. rewrite Hq.
        destruct k as [| k].
        + simpl. rewrite app_nil_r, Hf; [exact Hdir | left; lia].
        + apply Hd. simpl in Hk. lia.
      - intros p Hp. rewrite Hf.
        + apply Hfs0. intro E. subst p. rewrite length_app in Hp. simpl in Hp. lia.
        + rewrite length_app in *. simpl in Hp. lia. }
    simpl. fold q.
    destruct (node_at fs q) as [[| cf] |] eqn:En; [| discriminate H1 |].
    + apply Hdone; auto.
    + apply Hdone.
      * apply node_at_set_same. unfold q. intro E. symmetry in E.
        apply app_cons_not_nil in E. exact E.
      * reflexivity.
      * intros p Hp. apply node_at_set_other. exact Hp.
Qed.

Lemma resolve_cwd fs fs' p : cwd fs' = cwd fs -> resolve fs' p = resolve fs p.
Proof. intro H. unfold resolve. rewrite H. reflexivity. Qed.

Lemma open_write_ok fs p q c :
  ends_with_slash p = false -> resolve fs p = q -> q <> [] ->
  is_dir_node (node_at fs q) = false -> node_at fs (removelast q) = Some NDir ->
  open_write fs p c = Some (set_node fs q (NFile c)).
Proof.
  intros He Hr Hq Hd Hp. unfold open_write. rewrite He, Hr.
  destruct q as [| x q]; [contradiction |].
  destruct (node_at fs (x :: q)) as [[|]|]; simpl in Hd; try discriminate;
    rewrite Hp; reflexivity.
Qed.

Lemma resolve_station1_dir fs :
  resolve fs "./out/mw/synop" = (cwd fs ++ ["out"; "mw"; "synop"])%list.
Proof. unfold resolve. simpl. unfold norm_step. simpl. rewrite <- !app_assoc. reflexivity. Qed.

Lemma resolve_station1_file fs :
  resolve fs "./out/mw/synop/station1.csv" =
  (cwd fs ++ ["out"; "mw"; "synop"; "station1.csv"])%list.
Proof. unfold resolve. simpl. unfold norm_step. simpl. rewrite <- !app_assoc. reflexivity. Qed.

(** The write stage for [relPath = "obs/station1.csv"] on topic
    [mw.synop], in a tree where [./out/mw/synop/station1.csv] can be
    written. *)
Lemma write_out_station1 m c s :
  field m "relPath" = Some (JStr "obs/station1.csv") ->
  can_write_under (st_fs s) ["out"; "mw"; "synop"] "station1.csv" = true ->
  exists s', write_out m "mw.synop" c s = Ret tt s' /\
    node_at (st_fs s') (cwd (st_fs s) ++ ["out"; "mw"; "synop"; "station1.csv"])%list
      = Some (NFile c).
Proof.
  intros Hrel Hw. destruct s as [fs tr]. simpl in Hw |- *.
  set (dir := (cwd fs ++ ["out"; "mw"; "synop"])%list) in Hw.
  unfold can_write_under in Hw. fold dir in Hw.
  apply andb_true_iff in Hw as [Hall Hname].
  rewrite forallb_forall in Hall.
  destruct (mkdirs_walk_ok dir fs [])
    as [fs1 [Hwalk [Hc [Hd Hf]]]].
  { intros k Hk. apply Hall. apply in_seq. lia. }
  destruct m as [| | | | |kvs]; try discriminate. simpl in Hrel.
  unfold write_out, bind, getitem. simpl. rewrite Hrel. simpl.
  change (path_join out_dir "mw/synop") with "./out/mw/synop".
  change (path_join "./out/mw/synop" "station1.csv") with "./out/mw/synop/station1.csv".
  unfold makedirs_m, os_makedirs. simpl.
  rewrite resolve_station1_dir. fold dir. rewrite Hwalk.
  unfold write_file_m. simpl.
  assert (Hdirne : dir <> []).
  { unfold dir. intro E. apply app_eq_nil in E. destruct E as [_ E]. discriminate. }
  assert (Hq : (cwd fs ++ ["out"; "mw"; "synop"; "station1.csv"])%list = (dir ++ ["station1.csv"])%list)
    by (unfold dir; rewrite <- app_assoc; reflexivity).
  rewrite (open_write_ok fs1 "./out/mw/synop/station1.csv" (dir ++ ["station1.csv"])%list c).
  - unfold emit. simpl. eexists. split; [reflexivity |]. simpl.
    rewrite Hq. apply node_at_set_same.
    intro E. apply app_eq_nil in E. destruct E as [_ E]. discriminate.
  - reflexivity.
  - rewrite resolve_station1_file, Hc. exact Hq.
  - intro E. apply app_eq_nil in E. destruct E as [_ E]. discriminate.
  - rewrite Hf.
    + apply negb_true_iff. exact Hname.
    + right. simpl. rewrite !length_app. simpl. lia.
  - rewrite removelast_last.
    rewrite <- (firstn_all dir) at 1. simpl in Hd. apply Hd.
    destruct dir as [| x r]; [contradiction | simpl; lia].
Qed.

(** C6: the spec's end-to-end example. The inline message with relPath
    [obs/station1.csv], size 11, base64 content [aGVsbG8gd29ybGQ=] and the
    base64 SHA-512 digest of [hello world], delivered on topic [mw.synop],
    is processed without an exception, and afterwards the file
    [./out/mw/synop/station1.csv] (resolved against the working directory)
    holds exactly the bytes [hello world]; the write is recorded at that
    path. The only assumption on the filesystem is that the path can be
    written: no component of [./out/mw/synop] is a regular file and
    [station1.csv] there is not a directory. *)
Theorem end_to_end_station1 sha loads http body st :
  loads body = Some (station1_message sha) ->
  can_write_under (st_fs st) ["out"; "mw"; "synop"] "station1.csv" = true ->
  exists s', parse_mqp_message sha loads http body "mw.synop" st = Ret tt s' /\
    node_at (st_fs s') (cwd (st_fs st) ++ ["out"; "mw"; "synop"; "station1.csv"])%list
      = Some (NFile (bytes_of_string "hello world")) /\
    In (EvWrite "./out/mw/synop/station1.csv" (bytes_of_string "hello world")) (st_trace s').
Proof.
  intros Hl Hw.
  set (s1 := with_ev st (EvLog DEBUG (LogJson "MQP message: " (station1_message sha)))).
  assert (Hup : parse_upto_content loads http body st = Ret (station1_message sha, hello) s1).
  { unfold parse_upto_content, load_json, bind. rewrite Hl. reflexivity. }
  rewrite (parse_after_upto sha loads http body "mw.synop" st _ _ _ Hup).
  unfold bind at 1.
  rewrite (check_integrity_eq sha (station1_message sha) hello s1 (JNum 11)
             (JObj [("method", JStr "sha512"); ("value", JStr (b64encode (sha hello)))])
             (b64encode (sha hello)) eq_refl eq_refl eq_refl).
  simpl negb. rewrite String.eqb_refl.
  destruct (write_out_station1 (station1_message sha) hello s1 eq_refl)
    as [s' [Hwo Hnode]].
  { exact Hw. }
  rewrite Hwo. exists s'. split; [reflexivity | split].
  - exact Hnode.
  - destruct (write_out_ret _ _ _ _ _ Hwo) as [rel [Hrel Htr]].
    simpl in Hrel. injection Hrel as <-. rewrite Htr.
    apply in_or_app. right. simpl. auto.
Qed.

Lemma end_to_end_station1_witness :
  exists s', parse_mqp_message demo_sha (loads_const (station1_message demo_sha)) no_network
               hello "mw.synop" empty_state = Ret tt s' /\
    node_at (st_fs s') (cwd (st_fs empty_state) ++ ["out"; "mw"; "synop"; "station1.csv"])%list
      = Some (NFile (bytes_of_string "hello world")) /\
    In (EvWrite "./out/mw/synop/station1.csv" (bytes_of_string "hello world")) (st_trace s').
Proof.
  apply (end_to_end_station1 demo_sha (loads_const (station1_message demo_sha)) no_network
           hello empty_state).
  - reflexivity.
  - vm_compute. reflexivity.
Defined.

(** C3, refuted: the server answers 404, yet the message does not fail.
    Whatever the digest function, the remote message declaring 11 bytes and
    the base64 digest of [hello world] takes the 404 body as its content,
    passes the length and digest checks and is written to
    [./out/mw/synop/station1.csv]. *)
Lemma non2xx_body_is_written :
  http_404 "https://example.org/data/obs/station1.csv" = HttpResponse 404 hello /\
  forall sha, exists s',
    parse_mqp_message sha (loads_const (remote_station1_sha sha)) http_404 [] "mw.synop"
      empty_state = Ret tt s' /\
    node_at (st_fs s') ["srv"; "out"; "mw"; "synop"; "station1.csv"] = Some (NFile hello).
Proof.
  split; [reflexivity |]. intro sha.
  set (s1 := with_ev (with_ev empty_state
               (EvLog DEBUG (LogJson "MQP message: " (remote_station1_sha sha))))
               (EvGet "https://example.org/data/obs/station1.csv")).
  assert (Hup : parse_upto_content (loads_const (remote_station1_sha sha)) http_404 []
                  empty_state = Ret (remote_station1_sha sha, hello) s1) by reflexivity.
  rewrite (parse_after_upto sha _ _ _ "mw.synop" _ _ _ _ Hup).
  unfold bind at 1.
  rewrite (check_integrity_eq sha (remote_station1_sha sha) hello s1 (JNum 11)
             (JObj [("method", JStr "sha512"); ("value", JStr (b64encode (sha hello)))])
             (b64encode (sha hello)) eq_refl eq_refl eq_refl).
  simpl negb. rewrite String.eqb_refl.
  destruct (write_out_station1 (remote_station1_sha sha) hello s1 eq_refl)
    as [s' [Hwo Hnode]]; [vm_compute; reflexivity |].
  rewrite Hwo. exists s'. split; [reflexivity | exact Hnode].
Qed.

(* ------------------------------------------------------------------ *)
(** ** Base64 helpers: exhaustive checks on 6-bit and 8-bit values *)

Lemma all_below_spec n P : all_below n P = true -> forall a, 0 <= a < Z.of_nat n -> P a = true.
Proof.
  intros H a Ha. unfold all_below in H. rewrite forallb_forall in H.
  specialize (H (Z.to_nat a)). rewrite Z2Nat.id in H by lia. apply H.
  apply in_seq. lia.
Qed.

Lemma all_below2_spec n m P :
  all_below n (fun a => all_below m (fun b => P a b)) = true ->
  forall a b, 0 <= a < Z.of_nat n -> 0 <= b < Z.of_nat m -> P a b = true.
Proof.
  intros H a b Ha Hb. apply (all_below_spec m (P a)); [| exact Hb].
  exact (all_below_spec n _ H a Ha).
Qed.

Lemma in64_spec e : in64 e = true -> 0 <= e < 64.
Proof. unfold in64. rewrite andb_true_iff, Z.leb_le, Z.ltb_lt. auto. Qed.

Lemma b64_char_table v : 0 <= v < 64 ->
  Ascii.eqb (b64_char v) "="%char = false /\ a2b_table (b64_char v) = v.
Proof.
  intro Hv.
  assert (H : all_below 64 (fun v => negb (Ascii.eqb (b64_char v) "="%char) && Z.eqb (a2b_table (b64_char v)) v) = true)
    by (vm_compute; reflexivity).
  pose proof (all_below_spec _ _ H v ltac:(simpl; lia)) as E.
  apply andb_true_iff in E as [E1 E2]. apply negb_true_iff in E1. apply Z.eqb_eq in E2. auto.
Qed.

Lemma b64_char_ascii v : 0 <= v < 64 -> (byte_of_ascii (b64_char v) <? 128) = true.
Proof.
  intro Hv. refine (all_below_spec 64 (fun v => byte_of_ascii (b64_char v) <? 128) _ v ltac:(simpl; lia)).
  vm_compute. reflexivity.
Qed.

Lemma a2b_loop_char v rest q l p out : 0 <= v < 64 ->
  a2b_loop (String (b64_char v) rest) q l p out =
  match q with
  | O => a2b_loop rest 1 v 0 out
  | 1%nat => a2b_loop rest 2 (Z.land v 15) 0
               (Z.land (Z.lor (Z.shiftl l 2) (Z.shiftr v 4)) 255 :: out)
  | 2%nat => a2b_loop rest 3 (Z.land v 3) 0
               (Z.land (Z.lor (Z.shiftl l 4) (Z.shiftr v 2)) 255 :: out)
  | _ => a2b_loop rest 0 0 0 (Z.land (Z.lor (Z.shiftl l 6) v) 255 :: out)
  end.
Proof.
  intro Hv. destruct (b64_char_table v Hv) as [E1 E2].
  cbn [a2b_loop]. rewrite E1, E2.
  replace (64 <=? v) with false by (symmetry; apply Z.leb_gt; lia).
  reflexivity.
Qed.

Lemma a2b_loop_pad rest q l p out :
  a2b_loop (String "="%char rest) q l p out =
  if (2 <=? q)%nat then
    if (4 <=? q + S p)%nat then inr (rev out) else a2b_loop rest q l (S p) out
  else a2b_loop rest q l p out.
Proof. reflexivity. Qed.

Lemma b64_bits_a a b : 0 <= a < 256 -> 0 <= b < 256 ->
  Z.land (Z.lor (Z.shiftl (Z.shiftr a 2) 2)
                (Z.shiftr (Z.lor (Z.shiftl (Z.land a 3) 4) (Z.shiftr b 4)) 4)) 255 = a.
Proof.
  intros Ha Hb. apply Z.eqb_eq.
  refine (all_below2_spec 256 256
    (fun a b => Z.eqb (Z.land (Z.lor (Z.shiftl (Z.shiftr a 2) 2)
                (Z.shiftr (Z.lor (Z.shiftl (Z.land a 3) 4) (Z.shiftr b 4)) 4)) 255) a) _ a b Ha Hb).
  vm_compute. reflexivity.
Qed.

Lemma b64_bits a b c : 0 <= a < 256 -> 0 <= b < 256 -> 0 <= c < 256 ->
  Z.land (Z.lor (Z.shiftl (Z.land a 3) 4) (Z.shiftr b 4)) 15 = Z.shiftr b 4 /\
  Z.shiftr (Z.lor (Z.shiftl (Z.land b 15) 2) (Z.shiftr c 6)) 2 = Z.land b 15 /\
  Z.land (Z.lor (Z.shiftl (Z.shiftr b 4) 4) (Z.land b 15)) 255 = b /\
  Z.land (Z.lor (Z.shiftl (Z.land b 15) 2) (Z.shiftr c 6)) 3 = Z.shiftr c 6 /\
  Z.land (Z.lor (Z.shiftl (Z.shiftr c 6) 6) (Z.land c 63)) 255 = c /\
  Z.land (Z.lor (Z.shiftl (Z.shiftr a 2) 2) (Z.shiftr (Z.shiftl (Z.land a 3) 4) 4)) 255 = a /\
  Z.shiftr (Z.shiftl (Z.land b 15) 2) 2 = Z.land b 15 /\
  0 <= Z.shiftr a 2 < 64 /\
  0 <= Z.lor (Z.shiftl (Z.land a 3) 4) (Z.shiftr b 4) < 64 /\
  0 <= Z.lor (Z.shiftl (Z.land b 15) 2) (Z.shiftr c 6) < 64 /\
  0 <= Z.land c 63 < 64 /\
  0 <= Z.shiftl (Z.land a 3) 4 < 64 /\
  0 <= Z.shiftl (Z.land b 15) 2 < 64.
Proof.
  intros Ha Hb Hc.
  assert (E1 := all_below2_spec 256 256
    (fun a b => Z.eqb (Z.land (Z.lor (Z.shiftl (Z.land a 3) 4) (Z.shiftr b 4)) 15) (Z.shiftr b 4)
                && in64 (Z.lor (Z.shiftl (Z.land a 3) 4) (Z.shiftr b 4)))
    ltac:(vm_compute; reflexivity) a b Ha Hb).
  assert (E2 := all_below2_spec 256 256
    (fun b c => Z.eqb (Z.shiftr (Z.lor (Z.shiftl (Z.land b 15) 2) (Z.shiftr c 6)) 2) (Z.land b 15)
                && Z.eqb (Z.land (Z.lor (Z.shiftl (Z.land b 15) 2) (Z.shiftr c 6)) 3) (Z.shiftr c 6)
                && in64 (Z.lor (Z.shiftl (Z.land b 15) 2) (Z.shiftr c 6)))
    ltac:(vm_compute; reflexivity) b c Hb Hc).
  assert (E3 := all_below_spec 256
    (fun b => Z.eqb (Z.land (Z.lor (Z.shiftl (Z.shiftr b 4) 4) (Z.land b 15)) 255) b
              && Z.eqb (Z.land (Z.lor (Z.shiftl (Z.shiftr b 6) 6) (Z.land b 63)) 255) b
              && Z.eqb (Z.land (Z.lor (Z.shiftl (Z.shiftr b 2) 2) (Z.shiftr (Z.shiftl (Z.land b 3) 4) 4)) 255) b
              && Z.eqb (Z.shiftr (Z.shiftl (Z.land b 15) 2) 2) (Z.land b 15)
              && in64 (Z.shiftr b 2) && in64 (Z.land b 63)
              && in64 (Z.shiftl (Z.land b 3) 4) && in64 (Z.shiftl (Z.land b 15) 2))
    ltac:(vm_compute; reflexivity)).
  pose proof (E3 a Ha) as Ea. pose proof (E3 b Hb) as Eb. pose proof (E3 c Hc) as Ec.
  clear E3. cbv beta in *.
  repeat match goal with
  | H : _ && _ = true |- _ => apply andb_true_iff in H; destruct H
  | H : Z.eqb _ _ = true |- _ => apply Z.eqb_eq in H
  | H : in64 _ = true |- _ => apply in64_spec in H
  end.
  repeat split; assumption || lia.
Qed.

Lemma a2b_loop_b64encode n : forall bs t out, (length bs <= n)%nat ->
  Forall (fun b => 0 <= b < 256) bs ->
  a2b_loop (b64encode bs ++ t) 0 0 0 out =
  if (Nat.modulo (length bs) 3 =? 0)%nat then a2b_loop t 0 0 0 (rev bs ++ out)%list
  else inr (rev out ++ bs)%list.
Proof.
  induction n as [| n IH]; intros bs t out Hlen Hok.
  - destruct bs; [reflexivity | simpl in Hlen; lia].
  - destruct bs as [| a [| b [| c rest]]].
    + reflexivity.
    + inversion Hok as [| ? ? Ha _]; subst.
      destruct (b64_bits a 0 0 Ha ltac:(lia) ltac:(lia))
        as (_ & _ & _ & _ & _ & Xa & _ & R1 & _ & _ & _ & R5 & _).
      cbn [b64encode append].
      rewrite a2b_loop_char by exact R1. rewrite a2b_loop_char by exact R5.
      rewrite a2b_loop_pad. cbn -[Z.land Z.lor Z.shiftl Z.shiftr]. rewrite Xa. reflexivity.
    + inversion Hok as [| ? ? Ha Hok']; subst. inversion Hok' as [| ? ? Hb _]; subst.
      destruct (b64_bits a b 0 Ha Hb ltac:(lia))
        as (X2a & _ & X2c & _ & _ & _ & X2d & R1 & R2 & _ & _ & _ & R6).
      cbn [b64encode append].
      rewrite a2b_loop_char by exact R1. rewrite a2b_loop_char by exact R2.
      rewrite a2b_loop_char by exact R6.
      rewrite a2b_loop_pad. cbn -[Z.land Z.lor Z.shiftl Z.shiftr].
      rewrite b64_bits_a by assumption. rewrite X2a, X2d, X2c. rewrite <- app_assoc. reflexivity.
    + inversion Hok as [| ? ? Ha Hok1]; subst. inversion Hok1 as [| ? ? Hb Hok2]; subst.
      inversion Hok2 as [| ? ? Hc Hok3]; subst.
      destruct (b64_bits a b c Ha Hb Hc)
        as (X2a & X2b & X2c & X3a & X3b & _ & _ & R1 & R2 & R3 & R4 & _ & _).
      cbn [b64encode append].
      rewrite a2b_loop_char by exact R1. rewrite a2b_loop_char by exact R2.
      rewrite a2b_loop_char by exact R3. rewrite a2b_loop_char by exact R4.
      rewrite b64_bits_a by assumption. rewrite X2a, X2b, X2c, X3a, X3b.
      rewrite (IH rest t) by (simpl in Hlen; lia || exact Hok3).
      replace (Nat.modulo (length (a :: b :: c :: rest)) 3) with (Nat.modulo (length rest) 3).
      2: { replace (length (a :: b :: c :: rest)) with (length rest + 1 * 3)%nat
             by (simpl; lia). rewrite Nat.Div0.mod_add. reflexivity. }
      destruct (Nat.modulo (length rest) 3 =? 0)%nat.
      * simpl. rewrite <- !app_assoc. reflexivity.
      * simpl. rewrite <- !app_assoc. reflexivity.
Qed.

Lemma is_ascii_app s t : is_ascii_string (s ++ t) = is_ascii_string s && is_ascii_string t.
Proof. induction s as [| c s IH]; simpl; [reflexivity |]. rewrite IH, andb_assoc. reflexivity. Qed.

Lemma is_ascii_b64encode n : forall bs, (length bs <= n)%nat ->
  Forall (fun b => 0 <= b < 256) bs -> is_ascii_string (b64encode bs) = true.
Proof.
  induction n as [| n IH]; intros bs Hlen Hok.
  - destruct bs; [reflexivity | simpl in Hlen; lia].
  - destruct bs as [| a [| b [| c rest]]]; [reflexivity | | |].
    + inversion Hok as [| ? ? Ha _]; subst.
      destruct (b64_bits a 0 0 Ha ltac:(lia) ltac:(lia))
        as (_ & _ & _ & _ & _ & _ & _ & R1 & _ & _ & _ & R5 & _).
      cbn [b64encode is_ascii_string]. rewrite !b64_char_ascii by assumption. reflexivity.
    + inversion Hok as [| ? ? Ha Hok']; subst. inversion Hok' as [| ? ? Hb _]; subst.
      destruct (b64_bits a b 0 Ha Hb ltac:(lia))
        as (_ & _ & _ & _ & _ & _ & _ & R1 & R2 & _ & _ & _ & R6).
      cbn [b64encode is_ascii_string]. rewrite !b64_char_ascii by assumption. reflexivity.
    + inversion Hok as [| ? ? Ha Hok1]; subst. inversion Hok1 as [| ? ? Hb Hok2]; subst.
      inversion Hok2 as [| ? ? Hc Hok3]; subst.
      destruct (b64_bits a b c Ha Hb Hc)
        as (_ & _ & _ & _ & _ & _ & _ & R1 & R2 & R3 & R4 & _ & _).
      cbn [b64encode is_ascii_string]. rewrite !b64_char_ascii by assumption.
      apply IH; [simpl in Hlen; lia | exact Hok3].
Qed.

Lemma append_empty_r s : (s ++ "")%string = s.
Proof. induction s as [| c s IH]; simpl; [reflexivity | now rewrite IH]. Qed.

Lemma a2b_loop_skip c s2 : forall s1 q l p out,
  Ascii.eqb c "="%char = false -> a2b_table c = 64 ->
  a2b_loop (s1 ++ String c s2) q l p out = a2b_loop (s1 ++ s2) q l p out.
Proof.
  induction s1 as [| d s1 IH]; intros q l p out Hc Ht.
  - simpl. rewrite Hc, Ht. reflexivity.
  - cbn [a2b_loop append]. destruct (Ascii.eqb d "="%char).
    + destruct (2 <=? q)%nat; [destruct (4 <=? q + S p)%nat |]; auto.
    + destruct (64 <=? a2b_table d); [auto |].
      destruct q as [| [| [| q]]]; auto.
Qed.

(** Round trip of the two base64 helpers of lines 44 and 47: for every
    byte string, [base64.b64decode] of [base64.b64encode] gives the bytes
    back. *)
Theorem b64decode_b64encode bs :
  Forall (fun b => 0 <= b < 256) bs -> b64decode (b64encode bs) = inr bs.
Proof.
  intro Hok. unfold b64decode.
  rewrite (is_ascii_b64encode (length bs) bs (le_n _) Hok).
  rewrite <- (append_empty_r (b64encode bs)).
  rewrite (a2b_loop_b64encode (length bs) bs "" [] (le_n _) Hok).
  destruct (length bs mod 3 =? 0)%nat; simpl; rewrite ?app_nil_r, ?rev_involutive; reflexivity.
Qed.

Lemma b64decode_b64encode_witness :
  Forall (fun b => 0 <= b < 256) [0; 255; 16; 7] /\
  b64decode (b64encode [0; 255; 16; 7]) = inr [0; 255; 16; 7].
Proof.
  assert (H : Forall (fun b => 0 <= b < 256) [0; 255; 16; 7]) by (repeat constructor; lia).
  split; [exact H | exact (b64decode_b64encode [0; 255; 16; 7] H)].
Defined.

(** [base64.b64decode] (line 44) stops at the padding that completes the
    last quad: after the encoding of a byte string whose length is not a
    multiple of 3 (so it ends in [=]), any ASCII text is ignored and the
    original bytes are returned. *)
Theorem b64decode_ignores_after_padding bs t :
  Forall (fun b => 0 <= b < 256) bs -> (length bs mod 3 <> 0)%nat ->
  is_ascii_string t = true ->
  b64decode (b64encode bs ++ t) = inr bs.
Proof.
  intros Hok Hm Ht. unfold b64decode.
  rewrite is_ascii_app, (is_ascii_b64encode (length bs) bs (le_n _) Hok), Ht. simpl.
  rewrite (a2b_loop_b64encode (length bs) bs t [] (le_n _) Hok).
  apply Nat.eqb_neq in Hm. rewrite Hm. reflexivity.
Qed.

Lemma b64decode_ignores_after_padding_witness :
  b64encode [104; 105] = "aGk=" /\
  b64decode (b64encode [104; 105] ++ "trailing text") = inr [104; 105].
Proof.
  split; [reflexivity |].
  apply (b64decode_ignores_after_padding [104; 105] "trailing text").
  - repeat constructor; lia.
  - simpl. lia.
  - reflexivity.
Defined.

(** [base64.b64decode] (line 44) decodes a concatenation of encodings piece
    by piece when the first piece has no padding (its byte length is a
    multiple of 3). *)
Theorem b64decode_concat bs1 bs2 :
  Forall (fun b => 0 <= b < 256) bs1 -> Forall (fun b => 0 <= b < 256) bs2 ->
  (length bs1 mod 3 = 0)%nat ->
  b64decode (b64encode bs1 ++ b64encode bs2) = inr (bs1 ++ bs2)%list.
Proof.
  intros Hok1 Hok2 Hm. unfold b64decode.
  rewrite is_ascii_app, (is_ascii_b64encode (length bs1) bs1 (le_n _) Hok1),
    (is_ascii_b64encode (length bs2) bs2 (le_n _) Hok2). simpl.
  rewrite (a2b_loop_b64encode (length bs1) bs1 _ [] (le_n _) Hok1).
  apply Nat.eqb_eq in Hm. rewrite Hm.
  rewrite <- (append_empty_r (b64encode bs2)).
  rewrite (a2b_loop_b64encode (length bs2) bs2 "" _ (le_n _) Hok2).
  destruct (length bs2 mod 3 =? 0)%nat; simpl; rewrite ?app_nil_r, ?rev_app_distr, ?rev_involutive;
    reflexivity.
Qed.

Lemma b64decode_concat_witness :
  b64decode (b64encode [1; 2; 3] ++ b64encode [4]) = inr [1; 2; 3; 4].
Proof.
  apply (b64decode_concat [1; 2; 3] [4]).
  - repeat constructor; lia.
  - repeat constructor; lia.
  - reflexivity.
Defined.

(** [base64.b64decode] (line 44, non-strict mode) skips every ASCII character
    that is neither in the base64 alphabet nor [=] (newlines, spaces, ...):
    removing one anywhere does not change the result. *)
Theorem b64decode_skips_non_alphabet s1 s2 c :
  (byte_of_ascii c <? 128) = true -> Ascii.eqb c "="%char = false -> a2b_table c = 64 ->
  b64decode (s1 ++ String c s2) = b64decode (s1 ++ s2).
Proof.
  intros Ha Hc Ht. unfold b64decode.
  rewrite !is_ascii_app. simpl. rewrite Ha. simpl.
  destruct (is_ascii_string s1 && is_ascii_string s2); [| reflexivity].
  apply a2b_loop_skip; assumption.
Qed.

Lemma b64decode_skips_non_alphabet_witness :
  b64decode ("aGVs" ++ String "010"%char "bG8=") = b64decode ("aGVs" ++ "bG8=").
Proof.
  apply b64decode_skips_non_alphabet; vm_compute; reflexivity.
Defined.

(* ------------------------------------------------------------------ *)
(** ** [hexdigest()] *)

Lemma hex_pair_ok b : 0 <= b < 256 ->
  is_lower_hex (hex_char (Z.shiftr b 4)) = true /\ is_lower_hex (hex_char (Z.land b 15)) = true.
Proof.
  intro Hb.
  pose proof (all_below_spec 256 (fun b => is_lower_hex (hex_char (Z.shiftr b 4))
                                       && is_lower_hex (hex_char (Z.land b 15)))
                ltac:(vm_compute; reflexivity) b Hb) as H.
  apply andb_true_iff in H. exact H.
Qed.

Lemma hex_pair_inj a b : 0 <= a < 256 -> 0 <= b < 256 ->
  hex_char (Z.shiftr a 4) = hex_char (Z.shiftr b 4) ->
  hex_char (Z.land a 15) = hex_char (Z.land b 15) -> a = b.
Proof.
  intros Ha Hb H1 H2.
  pose proof (all_below2_spec 256 256
    (fun a b => implb (Ascii.eqb (hex_char (Z.shiftr a 4)) (hex_char (Z.shiftr b 4))
                       && Ascii.eqb (hex_char (Z.land a 15)) (hex_char (Z.land b 15)))
                      (Z.eqb a b))
    ltac:(vm_compute; reflexivity) a b Ha Hb) as H.
  simpl in H. rewrite H1, H2, !Ascii.eqb_refl in H. simpl in H. apply Z.eqb_eq. exact H.
Qed.

(** [hexdigest()] (line 52) spells every byte as two lowercase hexadecimal
    digits: the result has twice as many characters as the digest has
    bytes, all of them in [0-9a-f]. *)
Theorem hexlify_format bs :
  Forall (fun b => 0 <= b < 256) bs ->
  String.length (hexlify bs) = (2 * length bs)%nat /\ all_chars is_lower_hex (hexlify bs) = true.
Proof.
  induction 1 as [| b bs Hb Hbs IH]; [split; reflexivity |].
  destruct IH as [IH1 IH2]. destruct (hex_pair_ok b Hb) as [E1 E2].
  simpl. rewrite IH1, E1, E2, IH2. split; [lia | reflexivity].
Qed.

Lemma hexlify_format_witness :
  hexlify [0; 171; 255] = "00abff" /\
  String.length (hexlify [0; 171; 255]) = 6%nat /\ all_chars is_lower_hex (hexlify [0; 171; 255]) = true.
Proof.
  split; [reflexivity |].
  apply (hexlify_format [0; 171; 255]). repeat constructor; lia.
Defined.

(** [hexdigest()] (line 52) is injective: two byte strings with the same
    hexadecimal spelling are equal, so the hexadecimal comparison of line 52
    accepts exactly the digest it spells. *)
Theorem hexlify_injective bs1 bs2 :
  Forall (fun b => 0 <= b < 256) bs1 -> Forall (fun b => 0 <= b < 256) bs2 ->
  hexlify bs1 = hexlify bs2 -> bs1 = bs2.
Proof.
  intro H1. revert bs2. induction H1 as [| a bs1 Ha Hbs1 IH]; intros bs2 H2 E.
  - destruct bs2; [reflexivity | discriminate].
  - destruct H2 as [| b bs2 Hb Hbs2]; [discriminate |].
    simpl in E. injection E as E1 E2 E3.
    f_equal; [exact (hex_pair_inj a b Ha Hb E1 E2) | exact (IH bs2 Hbs2 E3)].
Qed.

Lemma hexlify_injective_witness : [18; 52] = [18; 52].
Proof.
  apply hexlify_injective; [repeat constructor; lia | repeat constructor; lia | reflexivity].
Defined.

(* ------------------------------------------------------------------ *)
(** ** [os.makedirs(p, exist_ok=True)] *)

Lemma mkdirs_walk_frame rest : forall fs pre,
  let r := mkdirs_walk fs pre rest in
  let fs' := match r with inl f => f | inr f => f end in
  cwd fs' = cwd fs /\ forall q, dir_created_or_same fs fs' q.
Proof.
  induction rest as [| s rest IH]; intros fs pre; simpl.
  - split; [reflexivity | intro q; left; reflexivity].
  - destruct (node_at fs (pre ++ [s])%list) as [[| c] |] eqn:E.
    + apply IH.
    + split; [reflexivity | intro q; left; reflexivity].
    + destruct (IH (set_node fs (pre ++ [s])%list NDir) (pre ++ [s])%list) as [Hc Hq].
      split; [exact Hc |]. intro q. specialize (Hq q). unfold dir_created_or_same in *.
      destruct (list_eq_dec String.string_dec q (pre ++ [s])%list) as [-> | Hne].
      * rewrite node_at_set_same in Hq by (intro H; symmetry in H; apply app_cons_not_nil in H; exact H).
        right. split; [exact E |]. destruct Hq as [Hq | [Hq _]]; [exact Hq | discriminate].
      * rewrite node_at_set_other in Hq by exact Hne. exact Hq.
Qed.

Lemma mkdirs_walk_dirs rest : forall fs pre fs',
  mkdirs_walk fs pre rest = inr fs' ->
  forall k, (1 <= k <= length rest)%nat -> node_at fs' (pre ++ firstn k rest) = Some NDir.
Proof.
  induction rest as [| s rest IH]; intros fs pre fs' H k Hk; simpl in Hk; [lia |].
  simpl in H.
  assert (Hq : forall k, (pre ++ firstn (S k) (s :: rest) = (pre ++ [s]) ++ firstn k rest)%list)
    by (intro; simpl; rewrite <- app_assoc; reflexivity).
  destruct k as [| k]; [lia |]. rewrite Hq.
  destruct (node_at fs (pre ++ [s])%list) as [[| c] |] eqn:E; [| discriminate |].
  - destruct k as [| k].
    + simpl. rewrite app_nil_r.
      destruct (mkdirs_walk_frame rest fs (pre ++ [s])%list) as [_ Hf].
      rewrite H in Hf. destruct (Hf (pre ++ [s])%list) as [-> | [Hn _]]; congruence.
    + apply (IH fs); [exact H | lia].
  - destruct k as [| k].
    + simpl. rewrite app_nil_r.
      destruct (mkdirs_walk_frame rest (set_node fs (pre ++ [s])%list NDir) (pre ++ [s])%list)
        as [_ Hf].
      rewrite H in Hf. specialize (Hf (pre ++ [s])%list). unfold dir_created_or_same in Hf.
      rewrite node_at_set_same in Hf by (intro H'; symmetry in H'; apply app_cons_not_nil in H'; exact H').
      destruct Hf as [-> | [Hn _]]; congruence.
    + apply (IH _ _ _ H). lia.
Qed.

Lemma mkdirs_walk_all_dirs rest : forall fs pre,
  (forall k, (1 <= k <= length rest)%nat -> node_at fs (pre ++ firstn k rest) = Some NDir) ->
  mkdirs_walk fs pre rest = inr fs.
Proof.
  induction rest as [| s rest IH]; intros fs pre H; [reflexivity |]. simpl.
  assert (E : node_at fs (pre ++ [s])%list = Some NDir)
    by (specialize (H 1%nat); simpl in H; apply H; simpl; lia).
  rewrite E. apply IH. intros k Hk.
  rewrite <- app_assoc. apply (H (S k)). simpl. lia.
Qed.

Lemma os_makedirs_frame fs p :
  let fs' := match os_makedirs fs p with inl f => f | inr f => f end in
  cwd fs' = cwd fs /\ forall q, dir_created_or_same fs fs' q.
Proof. apply mkdirs_walk_frame. Qed.

(** [os.makedirs(p, exist_ok=True)] (line 58), whether it succeeds or
    raises, keeps the working directory and changes the tree only by
    creating directories where nothing existed: no existing file or
    directory is modified or removed. *)
Theorem makedirs_only_creates_dirs fs p :
  let fs' := match os_makedirs fs p with inl f => f | inr f => f end in
  cwd fs' = cwd fs /\
  forall q, node_at fs' q = node_at fs q \/ (node_at fs q = None /\ node_at fs' q = Some NDir).
Proof. apply mkdirs_walk_frame. Qed.

(** [os.makedirs(p, exist_ok=True)] (line 58): after a successful call the
    resolved path is a directory, and a second call succeeds and changes
    nothing. *)
Theorem makedirs_exist_ok_idempotent fs p fs' :
  os_makedirs fs p = inr fs' ->
  node_at fs' (resolve fs p) = Some NDir /\ os_makedirs fs' p = inr fs'.
Proof.
  intro H. unfold os_makedirs in *.
  destruct (mkdirs_walk_frame (resolve fs p) fs []) as [Hc _]. rewrite H in Hc.
  pose proof (mkdirs_walk_dirs _ fs [] fs' H) as Hd. simpl in Hd.
  split.
  - destruct (resolve fs p) as [| x r] eqn:Er; [reflexivity |].
    rewrite <- (firstn_all (x :: r)). apply Hd. simpl. lia.
  - rewrite (resolve_cwd fs fs') by exact Hc. apply (mkdirs_walk_all_dirs _ fs' []). exact Hd.
Qed.

Lemma makedirs_exist_ok_idempotent_witness :
  exists fs', os_makedirs (st_fs empty_state) "./out/mw/synop" = inr fs' /\
    node_at fs' (resolve (st_fs empty_state) "./out/mw/synop") = Some NDir /\
    os_makedirs fs' "./out/mw/synop" = inr fs'.
Proof.
  eexists. split; [vm_compute; reflexivity |].
  apply makedirs_exist_ok_idempotent. vm_compute. reflexivity.
Defined.

(* ------------------------------------------------------------------ *)
(** ** Where the topic directory and the output file resolve *)

Lemma segments_nonempty s : segments s <> [].
Proof.
  destruct s as [| c r]; simpl; [discriminate |].
  destruct (is_slash c); [discriminate |]. destruct (segments r); discriminate.
Qed.

Lemma segments_app_slash a b :
  segments (a ++ String "/" b) = (segments a ++ segments b)%list.
Proof.
  induction a as [| c r IH]; [reflexivity |]. simpl. rewrite IH.
  destruct (is_slash c); [reflexivity |].
  destruct (segments r) as [| x xs] eqn:E; [exfalso; exact (segments_nonempty r E) |].
  reflexivity.
Qed.

Lemma segments_no_slash s : has_slash s = false -> segments s = [s].
Proof.
  induction s as [| c r IH]; [reflexivity |]. simpl. intro H.
  apply orb_false_iff in H as [Hc Hr]. rewrite Hc, (IH Hr). reflexivity.
Qed.

Lemma ends_with_slash_split s : ends_with_slash s = true -> exists s0, s = (s0 ++ "/")%string.
Proof.
  induction s as [| c r IH]; simpl; [discriminate |].
  destruct r as [| d r'].
  - intro H. exists "". unfold is_slash in H. apply Ascii.eqb_eq in H. subst. reflexivity.
  - intro H. destruct (IH H) as [s0 E]. exists (String c s0). rewrite E. reflexivity.
Qed.

Lemma starts_with_slash_app a b : a <> "" -> starts_with_slash (a ++ b) = starts_with_slash a.
Proof. destruct a; [contradiction | reflexivity]. Qed.

Lemma starts_with_slash_no_slash s : has_slash s = false -> starts_with_slash s = false.
Proof. destruct s as [| c r]; simpl; [reflexivity |]. intro H. apply orb_false_iff in H. tauto. Qed.

Lemma ends_with_slash_app_slash s : ends_with_slash (s ++ "/") = true.
Proof.
  induction s as [| c r IH]; [reflexivity |]. simpl.
  destruct (r ++ "/")%string eqn:E; [destruct r; discriminate | exact IH].
Qed.

Lemma resolve_app_slash fs a b : a <> "" ->
  resolve fs (a ++ String "/" b) = fold_left norm_step (segments b) (resolve fs a).
Proof.
  intro Ha. unfold resolve. rewrite starts_with_slash_app by exact Ha.
  rewrite segments_app_slash, fold_left_app. reflexivity.
Qed.

Lemma string_app_assoc a b c : ((a ++ b) ++ c)%string = (a ++ (b ++ c))%string.
Proof. induction a as [| x a IH]; simpl; [reflexivity | now rewrite IH]. Qed.

Lemma resolve_join fs td name : td <> "" -> has_slash name = false ->
  resolve fs (path_join td name) = norm_step (resolve fs td) name.
Proof.
  intros Htd Hn. unfold path_join. rewrite (starts_with_slash_no_slash name Hn).
  replace (String.eqb td "") with false
    by (symmetry; apply String.eqb_neq; exact Htd).
  simpl. destruct (ends_with_slash td) eqn:Ee.
  - destruct (ends_with_slash_split td Ee) as [td0 ->].
    rewrite string_app_assoc. simpl.
    destruct (String.eqb_spec td0 "") as [-> | Hne].
    + unfold resolve. simpl. rewrite segments_no_slash by exact Hn. reflexivity.
    + rewrite !resolve_app_slash by exact Hne.
      rewrite segments_no_slash by exact Hn. reflexivity.
  - rewrite resolve_app_slash by exact Htd.
    rewrite segments_no_slash by exact Hn. reflexivity.
Qed.

Lemma path_join_empty_ends_with_slash td : td <> "" -> ends_with_slash (path_join td "") = true.
Proof.
  intro Htd. unfold path_join. simpl.
  replace (String.eqb td "") with false by (symmetry; apply String.eqb_neq; exact Htd).
  simpl. destruct (ends_with_slash td) eqn:E.
  - rewrite append_empty_r. exact E.
  - apply ends_with_slash_app_slash.
Qed.

Lemma has_dot_replace_dots t : has_dot (replace_dots t) = false.
Proof.
  induction t as [| c r IH]; [reflexivity |]. simpl. rewrite IH, orb_false_r.
  destruct (Ascii.eqb c "."%char) eqn:E; [reflexivity | exact E].
Qed.

Lemma segments_no_dot s : has_dot s = false -> Forall (fun w => has_dot w = false) (segments s).
Proof.
  induction s as [| c r IH]; simpl; intro H; [repeat constructor |].
  apply orb_false_iff in H as [Hc Hr]. specialize (IH Hr).
  destruct (is_slash c); [constructor; [reflexivity | exact IH] |].
  destruct (segments r) as [| x xs]; [constructor; [simpl; rewrite Hc; reflexivity | constructor] |].
  inversion IH as [| ? ? Hx Hxs]; subst. constructor; [simpl; rewrite Hc, Hx; reflexivity | exact Hxs].
Qed.

Lemma fold_norm_no_dot ws : forall acc, Forall (fun w => has_dot w = false) ws ->
  fold_left norm_step ws acc = (acc ++ filter (fun w => negb (String.eqb w "")) ws)%list.
Proof.
  induction ws as [| w ws IH]; intros acc H; simpl; [now rewrite app_nil_r |].
  inversion H as [| ? ? Hw Hws]; subst.
  unfold norm_step at 2.
  destruct (String.eqb_spec w "") as [-> | Hne]; simpl.
  - apply IH. exact Hws.
  - assert (E1 : String.eqb w "." = false)
      by (apply String.eqb_neq; intro E; subst; discriminate).
    assert (E2 : String.eqb w ".." = false)
      by (apply String.eqb_neq; intro E; subst; discriminate).
    rewrite E1, E2. simpl. rewrite IH by exact Hws. rewrite <- app_assoc. reflexivity.
Qed.

(** The topic directory of lines 56-58, for a topic that does not start
    with [.] or [/] (after replacing the dots): it resolves to
    [cwd/out/w1/.../wn], where [w1 ... wn] are the non-empty dot-separated
    words of the topic; since every [.] became [/], no component is [.] or
    [..], so the directory always lies under [./out]. *)
Theorem topic_dir_under_out fs topic :
  starts_with_slash (replace_dots topic) = false ->
  resolve fs (path_join out_dir (replace_dots topic)) =
  (cwd fs ++ "out" :: nonempty_segments (replace_dots topic))%list.
Proof.
  intro Hs.
  replace (path_join out_dir (replace_dots topic)) with
    ("./out" ++ String "/" (replace_dots topic))%string
    by (unfold path_join; rewrite Hs; reflexivity).
  rewrite resolve_app_slash by discriminate.
  rewrite fold_norm_no_dot by (apply segments_no_dot, has_dot_replace_dots).
  unfold nonempty_segments. unfold resolve. simpl. unfold norm_step. simpl.
  rewrite <- app_assoc. reflexivity.
Qed.

Lemma topic_dir_under_out_witness :
  resolve (st_fs empty_state) (path_join out_dir (replace_dots "mw..synop.")) =
  ["srv"; "out"; "mw"; "synop"].
Proof.
  rewrite (topic_dir_under_out (st_fs empty_state) "mw..synop.") by reflexivity.
  vm_compute. reflexivity.
Defined.

(** The topic directory of lines 56-58 for a topic that starts with [.] or
    [/]: [topic.replace(".", "/")] is then an absolute path, so
    [os.path.join] discards [./out]; the directory is the topic's words from
    the filesystem root, whatever the working directory. *)
Theorem topic_dir_absolute fs topic :
  starts_with_slash (replace_dots topic) = true ->
  path_join out_dir (replace_dots topic) = replace_dots topic /\
  resolve fs (path_join out_dir (replace_dots topic)) = nonempty_segments (replace_dots topic).
Proof.
  intro Hs. unfold path_join. rewrite Hs. split; [reflexivity |].
  unfold resolve. rewrite Hs.
  rewrite fold_norm_no_dot by (apply segments_no_dot, has_dot_replace_dots). reflexivity.
Qed.

Lemma topic_dir_absolute_witness :
  path_join out_dir (replace_dots ".etc.cron") = "/etc/cron" /\
  resolve (st_fs empty_state) (path_join out_dir (replace_dots ".etc.cron")) = ["etc"; "cron"].
Proof.
  destruct (topic_dir_absolute (st_fs empty_state) ".etc.cron" eq_refl) as [H1 H2].
  split; [exact H1 | rewrite H2; vm_compute; reflexivity].
Defined.

(* ------------------------------------------------------------------ *)
(** ** What the write stage does to the tree *)

Lemma write_out_ret_fs m topic c s s' :
  write_out m topic c s = Ret tt s' ->
  exists rel fs1, field m "relPath" = Some (JStr rel) /\
    os_makedirs (st_fs s) (path_join out_dir (replace_dots topic)) = inr fs1 /\
    open_write fs1 (out_path topic rel) c = Some (st_fs s').
Proof.
  intros H. unfold write_out, bind in H.
  destruct m as [| | | | |kvs]; simpl in H; try discriminate.
  destruct (assoc kvs "relPath") as [[| | | rel | |]|] eqn:Er; simpl in H; try discriminate.
  exists rel. unfold out_path, basename.
  destruct (path_split rel) as [d f]. simpl in *.
  unfold makedirs_m in H. destruct (os_makedirs (st_fs s) _) as [fs1 | fs1]; [discriminate |].
  exists fs1. split; [exact Er | split; [reflexivity |]].
  unfold write_file_m in H. simpl in H.
  destruct (open_write fs1 (path_join (path_join out_dir (replace_dots topic)) f) c)
    as [fs2 |]; [| discriminate].
  unfold emit in H. inversion H; subst. reflexivity.
Qed.

Lemma open_write_inv fs p c fs' :
  open_write fs p c = Some fs' ->
  ends_with_slash p = false /\ resolve fs p <> [] /\ node_at fs (resolve fs p) <> Some NDir /\
  node_at fs (removelast (resolve fs p)) = Some NDir /\
  fs' = set_node fs (resolve fs p) (NFile c).
Proof.
  unfold open_write. destruct (ends_with_slash p); [discriminate |].
  destruct (resolve fs p) as [| x q]; [discriminate |].
  destruct (node_at fs (x :: q)) as [[|]|] eqn:E; [discriminate | |];
  destruct (node_at fs (removelast (x :: q))) as [[|]|]; try discriminate;
  intro H; inversion H; subst; repeat split; congruence.
Qed.

Lemma td_nonempty topic : path_join out_dir (replace_dots topic) <> "".
Proof.
  unfold path_join. destruct (starts_with_slash (replace_dots topic)) eqn:E.
  - destruct (replace_dots topic); discriminate.
  - discriminate.
Qed.

Lemma write_out_layout m topic c s s' :
  write_out m topic c s = Ret tt s' ->
  exists rel, field m "relPath" = Some (JStr rel) /\
    basename rel <> "" /\ basename rel <> "." /\ basename rel <> ".." /\
    node_at (st_fs s')
      (resolve (st_fs s) (path_join out_dir (replace_dots topic)) ++ [basename rel])%list
      = Some (NFile c) /\
    (forall q, q <> (resolve (st_fs s) (path_join out_dir (replace_dots topic)) ++ [basename rel])%list ->
       dir_created_or_same (st_fs s) (st_fs s') q).
Proof.
  intro H. destruct (write_out_ret_fs m topic c s s' H) as [rel [fs1 [Hrel [Hmk Hopen]]]].
  exists rel. split; [exact Hrel |].
  set (td := path_join out_dir (replace_dots topic)) in *.
  set (name := basename rel).
  set (dir := resolve (st_fs s) td).
  destruct (os_makedirs_frame (st_fs s) td) as [Hcwd Hfr]. rewrite Hmk in Hcwd, Hfr.
  assert (Hdirs : forall k, (1 <= k <= length dir)%nat -> node_at fs1 (firstn k dir) = Some NDir)
    by (intros k Hk; exact (mkdirs_walk_dirs dir (st_fs s) [] fs1 Hmk k Hk)).
  destruct (open_write_inv fs1 (out_path topic rel) c (st_fs s') Hopen)
    as (Hslash & Hne & Hnd & Hpar & Hfs').
  assert (Hn : has_slash name = false) by apply (proj1 (basename_spec rel)).
  assert (Hq : resolve fs1 (out_path topic rel) = norm_step dir name).
  { unfold out_path. fold td. fold name. rewrite (resolve_cwd (st_fs s) fs1) by exact Hcwd.
    apply resolve_join; [apply td_nonempty | exact Hn]. }
  rewrite Hq in Hne, Hnd, Hpar, Hfs'.
  assert (Hfull : dir <> [] -> node_at fs1 dir = Some NDir).
  { intro Hd. rewrite <- (firstn_all dir). apply Hdirs.
    destruct dir; [contradiction | simpl; lia]. }
  assert (Name1 : name <> "").
  { intro E. unfold out_path in Hslash. fold td name in Hslash. rewrite E in Hslash.
    rewrite path_join_empty_ends_with_slash in Hslash by apply td_nonempty. discriminate. }
  assert (Name2 : name <> ".").
  { intro E. rewrite E in Hne, Hnd. unfold norm_step in Hne, Hnd. simpl in Hne, Hnd.
    exact (Hnd (Hfull Hne)). }
  assert (Name3 : name <> "..").
  { intro E. rewrite E in Hne, Hnd. unfold norm_step in Hne, Hnd. simpl in Hne, Hnd.
    apply Hnd. rewrite removelast_firstn_len in Hne |- *. apply Hdirs.
    destruct (Nat.pred (length dir)) eqn:El; [simpl in Hne; contradiction | lia]. }
  assert (Hstep : norm_step dir name = (dir ++ [name])%list).
  { unfold norm_step.
    rewrite (proj2 (String.eqb_neq _ _) Name1), (proj2 (String.eqb_neq _ _) Name2),
      (proj2 (String.eqb_neq _ _) Name3). reflexivity. }
  rewrite Hstep in Hfs', Hne.
  split; [exact Name1 | split; [exact Name2 | split; [exact Name3 | split]]].
  - rewrite Hfs'. apply node_at_set_same. exact Hne.
  - intros q Hq'. rewrite Hfs'. unfold dir_created_or_same.
    rewrite node_at_set_other by exact Hq'. apply Hfr.
Qed.

(** A successful [parse_mqp_message] (lines 26-63) leaves, at the topic
    directory resolved before the call followed by the basename of
    [relPath], a regular file holding exactly the content the message
    resolved to (an existing file there is replaced); the basename is not
    empty, [.] or [..]. Everywhere else the tree only gained new
    directories. *)
Theorem parse_success_layout sha loads http body topic st s' :
  parse_mqp_message sha loads http body topic st = Ret tt s' ->
  exists m c s1 rel,
    parse_upto_content loads http body st = Ret (m, c) s1 /\
    field m "relPath" = Some (JStr rel) /\
    basename rel <> "" /\ basename rel <> "." /\ basename rel <> ".." /\
    node_at (st_fs s')
      (resolve (st_fs st) (path_join out_dir (replace_dots topic)) ++ [basename rel])%list
      = Some (NFile c) /\
    (forall q, q <> (resolve (st_fs st) (path_join out_dir (replace_dots topic)) ++ [basename rel])%list ->
       dir_created_or_same (st_fs st) (st_fs s') q).
Proof.
  intro H. unfold parse_mqp_message, bind in H.
  pose proof (proj1 (quiet_parse_upto_content loads http body st)) as Q1.
  destruct (parse_upto_content loads http body st) as [[m c] s1 | e s1] eqn:Eu;
    [| discriminate]. simpl in Q1.
  pose proof (proj1 (quiet_check_integrity sha m c s1)) as Q2.
  destruct (check_integrity sha m c s1) as [u s2 | e s2]; [| discriminate]. simpl in Q2.
  destruct (write_out_layout m topic c s2 s' H) as [rel (Hrel & N1 & N2 & N3 & Hn & Hf)].
  rewrite Q2, Q1 in Hn, Hf.
  exists m, c, s1, rel. repeat split; auto.
Qed.

Lemma parse_success_layout_witness :
  exists s',
    parse_mqp_message demo_sha (loads_const (station1_message demo_sha)) no_network hello
      "mw.synop" empty_state = Ret tt s' /\
    exists m c s1 rel,
      parse_upto_content (loads_const (station1_message demo_sha)) no_network hello empty_state
        = Ret (m, c) s1 /\
      field m "relPath" = Some (JStr rel) /\
      basename rel <> "" /\ basename rel <> "." /\ basename rel <> ".." /\
      node_at (st_fs s')
        (resolve (st_fs empty_state) (path_join out_dir (replace_dots "mw.synop")) ++ [basename rel])%list
        = Some (NFile c) /\
      (forall q, q <> (resolve (st_fs empty_state) (path_join out_dir (replace_dots "mw.synop"))
                        ++ [basename rel])%list ->
         dir_created_or_same (st_fs empty_state) (st_fs s') q).
Proof.
  eexists. split; [vm_compute; reflexivity |].
  apply (parse_success_layout demo_sha (loads_const (station1_message demo_sha)) no_network
           hello "mw.synop" empty_state). vm_compute. reflexivity.
Defined.

(* ------------------------------------------------------------------ *)
(** ** Redelivery of a processed message *)

Lemma state_eta s : mkState (st_fs s) (st_trace s ++ [])%list = s.
Proof. destruct s. simpl. rewrite app_nil_r. reflexivity. Qed.

Lemma stateless_ret {A} (a : A) : stateless (ret a).
Proof. exists (inl a), []. intro s. now rewrite state_eta. Qed.

Lemma stateless_raise {A} e : stateless (A := A) (raise e).
Proof. exists (inr e), []. intro s. now rewrite state_eta. Qed.

Lemma stateless_emit ev : stateless (emit ev).
Proof. exists (inl tt), [ev]. reflexivity. Qed.

Lemma stateless_bind {A B} (m : M A) (k : A -> M B) :
  stateless m -> (forall a, stateless (k a)) -> stateless (bind m k).
Proof.
  intros [r [evs Hm]] Hk. destruct r as [a | e].
  - destruct (Hk a) as [r' [evs' Hk']]. exists r', (evs ++ evs')%list. intro s.
    unfold bind. rewrite Hm. simpl. rewrite Hk'. simpl. rewrite app_assoc. reflexivity.
  - exists (inr e), evs. intro s. unfold bind. rewrite Hm. reflexivity.
Qed.

Lemma stateless_getitem j k : stateless (getitem j k).
Proof.
  destruct j; simpl; try apply stateless_raise.
  destruct (assoc kvs k); [apply stateless_ret | apply stateless_raise].
Qed.

Lemma stateless_py_in k j : stateless (py_in k j).
Proof. destruct j; simpl; (apply stateless_ret || apply stateless_raise). Qed.

Create HintDb stateless_db.
#[local] Hint Resolve stateless_ret stateless_raise stateless_emit stateless_getitem
  stateless_py_in : stateless_db.

Ltac stateless_solve :=
  repeat match goal with
  | |- stateless (bind _ _) => apply stateless_bind; [ | intro ]
  | |- stateless (if ?b then _ else _) => destruct b
  | |- stateless (match ?x with _ => _ end) => destruct x
  | |- forall _, _ => intro
  | |- stateless _ => solve [auto with stateless_db]
  end.

Section Stateless.
Variable sha512 : bytes -> bytes.
Variable json_loads : bytes -> option json.
Variable http_get : string -> http_outcome.

Lemma stateless_parse_upto_content body :
  stateless (parse_upto_content json_loads http_get body).
Proof.
  unfold parse_upto_content, load_json, validate, check_support, obtain_content,
    b64decode_m, str_add, requests_get.
  stateless_solve.
Qed.

Lemma stateless_check_integrity m c : stateless (check_integrity sha512 m c).
Proof. unfold check_integrity. stateless_solve. Qed.

End Stateless.

Lemma set_node_idem fs q n : set_node (set_node fs q n) q n = set_node fs q n.
Proof.
  unfold set_node. simpl. rewrite (proj2 (path_eqb_eq q q) eq_refl). simpl. f_equal. f_equal.
  induction (nodes fs) as [| [p v] ns IH]; [reflexivity |]. simpl.
  destruct (path_eqb p q) eqn:E; simpl; [exact IH | rewrite E; simpl; rewrite IH; reflexivity].
Qed.

Lemma write_out_again m topic c s s1 s0 :
  write_out m topic c s = Ret tt s1 -> st_fs s0 = st_fs s1 ->
  exists s2, write_out m topic c s0 = Ret tt s2 /\ st_fs s2 = st_fs s1.
Proof.
  intros H H0.
  destruct (write_out_ret_fs m topic c s s1 H) as [rel [fs1 [Hrel [Hmk Hopen]]]].
  set (td := path_join out_dir (replace_dots topic)) in *.
  destruct (os_makedirs_frame (st_fs s) td) as [Hcwd _]. rewrite Hmk in Hcwd.
  destruct (open_write_inv fs1 (out_path topic rel) c (st_fs s1) Hopen)
    as (Hslash & Hne & Hnd & Hpar & Hfs').
  set (q := resolve fs1 (out_path topic rel)) in *.
  assert (Hdirs : forall k, (1 <= k <= length (resolve (st_fs s) td))%nat ->
            node_at (st_fs s1) (firstn k (resolve (st_fs s) td)) = Some NDir).
  { intros k Hk. rewrite Hfs'. rewrite node_at_set_other.
    - exact (mkdirs_walk_dirs _ (st_fs s) [] fs1 Hmk k Hk).
    - intro E. apply Hnd. rewrite <- E. exact (mkdirs_walk_dirs _ (st_fs s) [] fs1 Hmk k Hk). }
  assert (Hcwd1 : cwd (st_fs s1) = cwd (st_fs s)) by (rewrite Hfs'; exact Hcwd).
  destruct m as [| | | | |kvs]; try discriminate. simpl in Hrel.
  unfold write_out, bind, getitem. simpl. rewrite Hrel. simpl.
  assert (Hp : out_path topic rel = path_join td (snd (path_split rel))) by reflexivity.
  destruct (path_split rel) as [d f]. simpl in Hp. cbv beta.
  unfold makedirs_m, os_makedirs. fold td. rewrite H0.
  rewrite (resolve_cwd (st_fs s) (st_fs s1)) by exact Hcwd1.
  rewrite (mkdirs_walk_all_dirs _ (st_fs s1) []) by exact Hdirs.
  unfold write_file_m. simpl. rewrite <- Hp.
  assert (Hq : resolve (st_fs s1) (out_path topic rel) = q)
    by (unfold q; apply resolve_cwd; congruence).
  rewrite (open_write_ok (st_fs s1) _ q c Hslash Hq Hne).
  - unfold emit. eexists. split; [reflexivity |]. simpl.
    rewrite Hfs', set_node_idem. reflexivity.
  - rewrite Hfs', node_at_set_same by exact Hne. reflexivity.
  - rewrite Hfs', node_at_set_other; [exact Hpar |].
    intro E. apply (f_equal (@length string)) in E.
    rewrite removelast_firstn_len, length_firstn in E.
    destruct q; [contradiction | simpl in E; lia].
Qed.

(** An inline message is resolved without the network: what [requests.get]
    would answer does not matter. *)
Lemma upto_inline_network loads http http' body m s :
  loads body = Some m -> field m "content" <> None ->
  parse_upto_content loads http body s = parse_upto_content loads http' body s.
Proof.
  intros Hl Hc. destruct m as [| | | | |kvs]; try (simpl in Hc; congruence). simpl in Hc.
  unfold parse_upto_content, load_json, bind. rewrite Hl. unfold ret at 1 3.
  destruct (emit _ s) as [[] s1 | e1 s1]; [| reflexivity].
  destruct (validate _ s1) as [[] s2 | e2 s2]; [| reflexivity].
  destruct (check_support _ s2) as [[] s3 | e3 s3]; [| reflexivity].
  unfold obtain_content, py_in, bind, ret.
  destruct (assoc kvs "content"); [reflexivity | congruence].
Qed.

(** Processing the same inline message (one with a [content] field) on the
    same topic again after a success (a redelivery) succeeds too and leaves
    the filesystem exactly as the first processing left it, whatever the
    network would answer the second time: no GET is issued. *)
Theorem redelivery_idempotent sha loads http http' body topic st s1 m :
  loads body = Some m -> field m "content" <> None ->
  parse_mqp_message sha loads http body topic st = Ret tt s1 ->
  exists s2, parse_mqp_message sha loads http' body topic s1 = Ret tt s2 /\
    st_fs s2 = st_fs s1.
Proof.
  intros Hl Hc H.
  assert (E : parse_mqp_message sha loads http' body topic s1 =
              parse_mqp_message sha loads http body topic s1).
  { unfold parse_mqp_message. unfold bind at 1 3.
    rewrite (upto_inline_network loads http' http body m s1 Hl Hc). reflexivity. }
  rewrite E. clear E.
  destruct (stateless_parse_upto_content loads http body) as [r1 [evs1 Hu]].
  unfold parse_mqp_message, bind in H |- *. rewrite Hu in H |- *.
  destruct r1 as [[m' c] | e]; [| discriminate]. simpl in H |- *.
  destruct (stateless_check_integrity sha m' c) as [r2 [evs2 Hc2]].
  rewrite Hc2 in H |- *. destruct r2 as [[] | e]; [| discriminate]. simpl in H |- *.
  apply (write_out_again m' topic c _ s1 _ H). reflexivity.
Qed.

Lemma redelivery_idempotent_witness :
  exists s1,
    parse_mqp_message demo_sha (loads_const (station1_message demo_sha)) no_network hello
      "mw.synop" empty_state = Ret tt s1 /\
    exists s2, parse_mqp_message demo_sha (loads_const (station1_message demo_sha)) http_404
                 hello "mw.synop" s1 = Ret tt s2 /\ st_fs s2 = st_fs s1.
Proof.
  eexists. split; [vm_compute; reflexivity |].
  apply (redelivery_idempotent demo_sha (loads_const (station1_message demo_sha)) no_network
           http_404 hello "mw.synop" empty_state _ (station1_message demo_sha)).
  - reflexivity.
  - discriminate.
  - vm_compute. reflexivity.
Defined.

(* ------------------------------------------------------------------ *)
(** ** The log level *)

(** The log level of lines 21-23 is [INFO] only when the environment sets
    [DEBUG] to the empty string: unset, or set to any non-empty string such
    as ["0"] or ["false"], it is [DEBUG]. *)
Theorem log_level_info_only_for_empty_debug env :
  log_level_of env = INFO <-> environ_lookup env "DEBUG" = Some "".
Proof.
  unfold log_level_of, DEBUG_of, environ_get.
  destruct (environ_lookup env "DEBUG") as [v |]; simpl; [| split; discriminate].
  destruct (String.eqb_spec v "") as [-> | Hne]; simpl.
  - split; reflexivity.
  - split; [discriminate | intro H; injection H; contradiction].
Qed.
